(** * luminate: loading of irregular count time series (src/util.py)

    A shallow embedding of [parse_otu_table], [parse_event_table],
    [format_observations], [load_observations] and [write_table], and the
    properties of the loading pipeline proved about it.

    Conventions of the embedding.
    - A numpy float64 is an element of an abstract carrier [F] with the
      comparisons the code uses ([<], [<=], [==]); [float(s)] and [str(x)]
      are operations of the carrier.  Nothing is assumed of the
      comparisons, so the carrier may hold NaN ([x == x] false).
    - [np.argsort] is a parameter of the model: numpy's default sort is not
      stable and leaves the order of equal values open.  The results that
      depend on the sort assume what numpy documents of it: the result
      lists every index once, and the values read along it ascend, NaN
      last.
    - [np.array] of rows of different lengths raises ValueError (numpy 1.24
      and later).
    - A 2-D numpy array is the list of its rows.
    - A raised exception is a value of [exn]; [print_error_and_die msg]
      is [SystemExit msg] (the message goes to stderr, then [exit(1)]).
    - Warnings printed to stderr do not influence any returned value and
      are left out. *)

From Stdlib Require Import Ascii String.
From stdpp Require Import base option list sorting gmap strings pretty.

Open Scope string_scope.

(** ** Exceptions and results *)

Inductive exn : Type :=
  | SystemExit (msg : string)
  | TypeError
  | ValueError
  | IndexError
  | KeyError.

Inductive result (A : Type) : Type :=
  | Ok (a : A)
  | Raise (e : exn).
Arguments Ok {A} a.
Arguments Raise {A} e.

(** Sequencing: the first exception raised ends the computation.  The
    notation [x ← m; k] below is this bind. *)
#[global] Instance result_bind : MBind result := λ A B k m,
  match m with
  | Ok a => k a
  | Raise e => Raise e
  end.
#[global] Instance result_ret : MRet result := λ A a, Ok a.

Definition print_error_and_die {A} (error_msg : string) : result A :=
  Raise (SystemExit error_msg).

Definition of_option {A} (e : exn) (o : option A) : result A :=
  match o with
  | Some a => Ok a
  | None => Raise e
  end.

(** [l[i]]: IndexError when [i] is out of range. *)
Definition getitem {A} (l : list A) (i : nat) : result A :=
  of_option IndexError (l !! i).

(** ** Floating-point carrier *)

Class Float64 (F : Type) := {
  f_zero : F;                              (* 0. *)
  f_one : F;                               (* 1 stored in a float array *)
  f_ltb : F → F → bool;                    (* x < y *)
  f_leb : F → F → bool;                    (* x <= y *)
  f_eqb : F → F → bool;                    (* x == y *)
  float_of_string : string → option F;     (* float(s); None = ValueError *)
  str_of_float : F → string;               (* str(x) *)
}.

(** The order in which numpy sorts floats: ascending, NaN last.
    [np_le x y]: a sort may leave [x] before [y], that is, [y < x] is
    false and [y] is NaN when [x] is. *)
Definition np_le {F : Type} `{Float64 F} (x y : F) : bool :=
  negb (f_ltb y x) && (f_eqb x x || negb (f_eqb y y)).

(** Total indexing of float arrays reads [0.] out of range; the code never
    indexes out of range where it is used. *)
#[global] Instance float_inhabited {F : Type} `{Float64 F} : Inhabited F :=
  populate f_zero.

(** A 2-D array of floats, as the list of its rows. *)
Abbreviation matrix F := (list (list F)) (only parsing).

(** ** Strings: [str.strip("\n")] and [str.split(sep)] *)

Definition LF : ascii := "010"%char.
Definition nl : string := String LF "".

Fixpoint lstrip_nl (s : string) : string :=
  match s with
  | String c s' => if Ascii.eqb c LF then lstrip_nl s' else s
  | EmptyString => EmptyString
  end.

Fixpoint rstrip_nl (s : string) : string :=
  match s with
  | EmptyString => EmptyString
  | String c s' =>
      match rstrip_nl s' with
      | EmptyString => if Ascii.eqb c LF then EmptyString else String c EmptyString
      | r => String c r
      end
  end.

(** [s.strip("\n")] *)
Definition strip_nl (s : string) : string := rstrip_nl (lstrip_nl s).

(** [s.split(sep)] for a one-character separator (every call in the
    repository passes [sep=","]). *)
Fixpoint str_split (sep : ascii) (s : string) : list string :=
  match s with
  | EmptyString => [EmptyString]
  | String c s' =>
      if Ascii.eqb c sep then EmptyString :: str_split sep s'
      else match str_split sep s' with
           | [] => [String c EmptyString]
           | w :: ws => String c w :: ws
           end
  end.

(** [line.strip("\n").split(sep)] *)
Definition fields (sep : ascii) (line : string) : list string :=
  str_split sep (strip_nl line).

(** [f.readlines()]: the text cut after every line feed, line feeds kept. *)
Fixpoint readlines_go (cur : string) (s : string) : list string :=
  match s with
  | EmptyString => match cur with EmptyString => [] | _ => [String.rev cur] end
  | String c s' =>
      if Ascii.eqb c LF then String.rev (String c cur) :: readlines_go EmptyString s'
      else readlines_go (String c cur) s'
  end.
Definition readlines (text : string) : list string := readlines_go EmptyString text.

(** ** parse_otu_table *)

Section TableParser.
Context {F : Type} `{Float64 F}.

(** [np.array(line, dtype=float)]: every cell through [float]; one bad
    cell raises ValueError. *)
Definition floats_of_strings (line : list string) : option (list F) :=
  mapM float_of_string line.

(** [np.any(row < 0.)] *)
Definition any_negative (row : list F) : bool :=
  existsb (λ x, f_ltb x f_zero) row.

(** [line.strip("\n").split(sep)], without its first cell when
    [has_rownames]. *)
Definition cells (sep : ascii) (has_rownames : bool) (line : string) : list string :=
  if has_rownames then tail (fields sep line) else fields sep line.

(** The body of [for idx, line in enumerate(lines[1:])].  On a column
    count mismatch the message is built as
    [... + " columns, but row 0 has" + n_col + " columns."] with [n_col]
    an [int]: the concatenation raises TypeError before
    [print_error_and_die] is entered. *)
Fixpoint parse_otu_rows (sep : ascii) (has_rownames : bool) (n_col : nat)
    (idx : nat) (lines : list string) : result (matrix F) :=
  match lines with
  | [] => Ok []
  | line :: rest =>
      let line := cells sep has_rownames line in
      let n_col_line := length line in
      if negb (n_col_line =? n_col)%nat then Raise TypeError
      else
        match floats_of_strings line with
        | None =>
            print_error_and_die
              ("Error parsing OTU table: invalid character in row " +:+ pretty idx)
        | Some row =>
            if (1 <? idx)%nat && any_negative row then
              print_error_and_die
                ("Error parsing OTU table: row " +:+ pretty idx +:+ " has negative entry.")
            else
              table ← parse_otu_rows sep has_rownames n_col (S idx) rest;
              Ok (row :: table)
        end
  end.

(** [n_col]: [len(lines[0].split(sep))], minus one when [has_rownames]. *)
Definition header_n_col (sep : ascii) (has_rownames : bool) (l0 : string) : nat :=
  if has_rownames then length (str_split sep l0) - 1 else length (str_split sep l0).

Definition parse_otu_table (lines : list string) (sep : ascii) (has_rownames : bool)
    : result (list string * matrix F) :=
  match lines with
  | [] => Raise IndexError                       (* lines[0] *)
  | l0 :: rest =>
      let n_col := header_n_col sep has_rownames l0 in
      let seq_id := cells sep has_rownames l0 in
      table ← parse_otu_rows sep has_rownames n_col 0 rest;
      Ok (seq_id, table)
  end.
End TableParser.

(** ** numpy helpers *)

(** A loop [for x in l: state = body(state, x)] whose body may raise. *)
Fixpoint rfold {A S} (body : S → A → result S) (s : S) (l : list A) : result S :=
  match l with
  | [] => Ok s
  | x :: l' => s' ← body s x; rfold body s' l'
  end.

(** [[f(x) for x in l]] where [f] may raise. *)
Fixpoint rmap {A B} (f : A → result B) (l : list A) : result (list B) :=
  match l with
  | [] => Ok []
  | x :: l' => y ← f x; ys ← rmap f l'; Ok (y :: ys)
  end.

(** [enumerate(l)] *)
Definition enumerate {A} (l : list A) : list (nat * A) := zip (seq 0 (length l)) l.

(** [dict(pairs)]: later pairs overwrite earlier ones. *)
Definition dict_of_list {K V} `{Countable K} (pairs : list (K * V)) : gmap K V :=
  foldl (λ m kv, <[kv.1 := kv.2]> m) ∅ pairs.

(** [np.argsort(l)]: the indices of [l] ordered by their values.  The
    default sort of numpy is not stable, and the order it gives to equal
    values differs between array types and builds, so the function is a
    parameter of the model. *)
Class Argsort (A : Type) := argsort : list A → list nat.

(** [np.unique(l)] on strings: the distinct values, ascending. *)
Definition np_unique (l : list string) : list string :=
  merge_sort String.le (remove_dups l).

(** [np.argwhere(mask)] flattened: the positions where [p] holds. *)
Definition argwhere {A} (p : A → bool) (l : list A) : list nat :=
  (enumerate l) ≫= (λ '(i, x), if p x then [i] else []).

(** [l[idx]] for an integer index array. *)
Definition take_at {A} `{Inhabited A} (l : list A) (idx : list nat) : list A :=
  (l !!!.) <$> idx.

(** [m[:, idx]] *)
Definition cols_at {A} `{Inhabited A} (m : list (list A)) (idx : list nat) : list (list A) :=
  (λ row, take_at row idx) <$> m.

(** What numpy documents of [np.argsort]: the result is a permutation of
    the indices, and no value read along it is followed by one that sorts
    before it ([le] is the order of the array type). *)
Class ArgsortLaws {A : Type} `{Inhabited A} (le : A → A → bool) (sort : Argsort A)
    : Prop := {
  argsort_Permutation : ∀ l : list A, @argsort A sort l ≡ₚ seq 0 (length l);
  argsort_sorted :
    ∀ l : list A, Sorted (λ x y, le x y = true) (take_at l (@argsort A sort l));
}.

(** The two sorts of [format_observations]: of the sequence ids (strings,
    in lexicographic order) and of the time points (floats). *)
Class NumpySort (F : Type) `{Float64 F} `{!Argsort string} `{!Argsort F} : Prop := {
  argsort_str_laws :: ArgsortLaws String.leb (argsort (A:=string));
  argsort_float_laws :: ArgsortLaws np_le (argsort (A:=F));
}.

(** [np.array(rows)] for a list of 1-D arrays: rows of different lengths
    raise ValueError. *)
Definition np_array {A} (rows : list (list A)) : result (list (list A)) :=
  match rows with
  | [] => Ok []
  | row :: _ =>
      if forallb (λ r, (length r =? length row)%nat) rows then Ok rows
      else Raise ValueError
  end.

(** [m[i, j] = v] *)
Definition setitem2 {A} (m : list (list A)) (i j : nat) (v : A) : result (list (list A)) :=
  match m !! i with
  | Some row =>
      if (j <? length row)%nat then Ok (<[i := <[j := v]> row]> m)
      else Raise IndexError
  | None => Raise IndexError
  end.

(** [x in l] *)
Definition contains (x : string) (l : list string) : bool := bool_decide (x ∈ l).

(** ** parse_event_table *)

Section EventParser.
Context {F : Type} `{Float64 F}.

(** A row of the [events] array.  The type index is an [int] taken from
    [event_to_int]; the array stores it as a float and
    [format_observations] reads it back with [int(event[0])], which is the
    same index. *)
Record event := mk_event {
  event_idx : nat;        (* int(event[0]) *)
  start_day : F;          (* event[1] *)
  end_day : F;            (* event[2] *)
  event_size : F;         (* event[3] *)
}.

(** First loop of [parse_event_table]: column count, start and end day,
    and the list of event types in the order they are met. *)
Fixpoint scan_event_rows (sep : ascii) (has_header : bool) (n_col : nat)
    (idx : nat) (event_types : list string) (lines : list string)
    : result (list string) :=
  match lines with
  | [] => Ok event_types
  | line :: rest =>
      let row_num := if has_header then idx + 1 else idx in
      let line := fields sep line in
      if negb (length line =? n_col)%nat then
        print_error_and_die
          ("Error parsing event table: row " +:+ pretty row_num +:+ " has " +:+
           pretty (length line) +:+ " columns, but header has " +:+ pretty n_col +:+ ".")
      else
        c2 ← getitem line 2;
        match float_of_string c2 with
        | None =>
            print_error_and_die
              ("Error parsing event table: row " +:+ pretty row_num +:+
               " has an invalid entry for start day or end day.")
        | Some _ =>
            c3 ← getitem line 3;
            match float_of_string c3 with
            | None =>
                print_error_and_die
                  ("Error parsing event table: row " +:+ pretty row_num +:+
                   " has an invalid entry for start day or end day.")
            | Some _ =>
                c1 ← getitem line 1;
                let event_types :=
                  if contains c1 event_types then event_types
                  else (event_types ++ [c1])%list in
                scan_event_rows sep has_header n_col (S idx) event_types rest
            end
        end
  end.

(** Second loop: one record and one sequence id per row. *)
Definition event_of_line (sep : ascii) (event_to_int : gmap string nat)
    (line : string) : result (event * string) :=
  let line := fields sep line in
  c0 ← getitem line 0;
  c1 ← getitem line 1;
  e_idx ← of_option KeyError (event_to_int !! c1);
  c2 ← getitem line 2;
  start_day ← of_option ValueError (float_of_string c2);
  c3 ← getitem line 3;
  end_day ← of_option ValueError (float_of_string c3);
  e_size ←
    (if (4 <? length line)%nat then
       c4 ← getitem line 4;
       of_option ValueError (float_of_string c4)
     else Ok f_one);
  Ok (mk_event e_idx start_day end_day e_size, c0).

Definition parse_event_table (lines : list string) (sep : ascii) (has_header : bool)
    : result (list event * gmap string nat * list string * list string) :=
  let lines := if has_header then tail lines else lines in
  l0 ← getitem lines 0;
  let n_col := length (fields sep l0) in
  event_types ← scan_event_rows sep has_header n_col 0 [] lines;
  let event_to_int := dict_of_list ((λ '(i, e), (e, i)) <$> enumerate event_types) in
  rows ← rmap (event_of_line sep event_to_int) lines;
  Ok (rows.*1, event_to_int, rows.*2, event_types).
End EventParser.
Arguments event F : clear implicits.

(** ** format_observations and load_observations *)

Section Aligner.
Context {F : Type} `{Float64 F} `{!Argsort string} `{!Argsort F}.

(** Body of [for day in days]: the count rows of the columns whose day
    equals [day]; with several such columns, the first of them. *)
Definition observation_at (seq : matrix F) (days : list F) (day : F) : list F :=
  let idx := argwhere (λ d, f_eqb d day) days in
  let row := cols_at (tail seq) idx in                  (* seq[1:, idx] *)
  if (1 <? length idx)%nat then (λ r, r !!! 0) <$> row  (* row[:, 0] *)
  else concat row.                                      (* row.reshape(row.size) *)

(** Body of [for day_idx, day in enumerate(days[:-1])]. *)
Definition encode_day (days : list F) (ev : event F) (effects : matrix F)
    (p : nat * F) : result (matrix F) :=
  let '(day_idx, day) := p in
  if f_leb (start_day ev) day && f_leb day (end_day ev) then
    setitem2 effects day_idx (event_idx ev) (event_size ev)
  else if f_leb day (start_day ev)
          && f_leb (end_day ev) (days !!! (day_idx + 1))
          && f_ltb (start_day ev) (days !!! (day_idx + 1)) then
    setitem2 effects day_idx (event_idx ev) (event_size ev)
  else Ok effects.

(** Body of [for event in events]. *)
Definition encode_event (days : list F) (effects : matrix F) (ev : event F)
    : result (matrix F) :=
  effects ← rfold (encode_day days ev) effects (enumerate (take (length days - 1) days));
  d_last ← of_option IndexError (last days);                       (* days[-1] *)
  setitem2 effects (length effects - 1) (event_idx ev)             (* effects[-1, event_idx] *)
    (if f_eqb (start_day ev) d_last then event_size ev else f_zero).

(** [event_table[np.array(event_seq_id) == s_id, :]] *)
Definition events_of (event_table : list (event F)) (event_seq_id : list string)
    (s_id : string) : list (event F) :=
  (filter (λ p, p.1 = s_id) (zip event_seq_id event_table)).*2.

(** The event arguments of [format_observations]: [event_table],
    [event_seq_id] and [event_to_int], or [None] for all three. *)
Definition event_args : Type := option (list (event F) * list string * gmap string nat).

Definition effects_of (days : list F) (evs : event_args) (s_id : string) : result (matrix F) :=
  match evs with
  | Some (event_table, event_seq_id, event_to_int) =>
      let effects := replicate (length days) (replicate (size event_to_int) f_zero) in
      let events := events_of event_table event_seq_id s_id in
      rfold (encode_event days) effects events
  | None => Ok (replicate (length days) (replicate 1 f_zero))
  end.

(** Body of [for s_id in np.unique(otu_seq_id)]; [otu_table] and
    [otu_seq_id] are already ordered by sequence id. *)
Definition format_subject (otu_table : matrix F) (otu_seq_id : list string)
    (evs : event_args) (s_id : string) : result (matrix F * matrix F * list F) :=
  let seq := cols_at otu_table (argwhere (λ x, bool_decide (x = s_id)) otu_seq_id) in
  seq0 ← getitem seq 0;
  let sort_by_day := argsort seq0 in
  let seq := cols_at seq sort_by_day in
  days ← getitem seq 0;
  let observations := observation_at seq days <$> days in
  effects ← effects_of days evs s_id;
  observations ← np_array observations;                 (* np.array(observations) *)
  Ok (observations, effects, days).

(** The table has one column per entry of [otu_seq_id] (the shape
    [parse_otu_table] returns). *)
Definition format_observations (otu_table : matrix F) (otu_seq_id : list string)
    (evs : event_args)
    : result (list string * list (matrix F) * list (matrix F) * list (list F)) :=
  let sort_by_seq := argsort otu_seq_id in
  let IDs := np_unique otu_seq_id in
  let otu_table := cols_at otu_table sort_by_seq in
  let otu_seq_id := take_at otu_seq_id sort_by_seq in
  YUT ← rmap (format_subject otu_table otu_seq_id evs) (np_unique otu_seq_id);
  Ok (IDs, YUT.*1.*1, YUT.*1.*2, YUT.*2).

(** [event_lines = None] stands for [event_filename == ""]. *)
Definition load_observations (otu_lines : list string) (event_lines : option (list string))
    : result (list string * list (matrix F) * list (matrix F) * list (list F)
              * option (list string)) :=
  '(otu_seq_id, otu_table) ← parse_otu_table otu_lines ","%char true;
  '(evs, event_names) ←
    match event_lines with
    | Some lines =>
        '(events, event_to_int, event_seq_id, event_names) ←
          parse_event_table lines ","%char true;
        Ok (Some (events, event_seq_id, event_to_int), Some event_names)
    | None => Ok (None, None)
    end;
  '(IDs, Y, U, T) ← format_observations otu_table otu_seq_id evs;
  Ok (IDs, Y, U, T, event_names).
End Aligner.

(** ** write_table *)

(** The dictionary [predictions]: (subject id, day as text) to a row. *)
Abbreviation predictions_t F := (gmap (string * string) (list F)) (only parsing).

Section TableScatter.
Context {F : Type} `{Float64 F}.


(** [for t, day in enumerate(days): predictions[(str(p_id), str(day))] = y_pred[t]] *)
Definition add_predictions (predictions : (predictions_t F))
    (p : string * matrix F * list F) : result (predictions_t F) :=
  let '(p_id, y_pred, days) := p in
  rfold (λ predictions '(t, day),
           row ← getitem y_pred t;
           Ok (<[(p_id, str_of_float day) := row]> predictions))
        predictions (enumerate days).

(** [out_table[r0:, j] = v] for a 1-D [v]: [v] has the length of the
    slice, or length 1 (broadcast); any other length raises ValueError. *)
Definition assign_col (out_table : matrix F) (r0 j : nat) (v : list F) : result (matrix F) :=
  if (length v =? length out_table - r0)%nat then
    Ok (imap (λ i row, if (r0 <=? i)%nat then <[j := v !!! (i - r0)]> row else row) out_table)
  else if (length v =? 1)%nat then
    Ok (imap (λ i row, if (r0 <=? i)%nat then <[j := v !!! 0]> row else row) out_table)
  else Raise ValueError.

(** Body of [for j, col in enumerate(in_table[:,1:].T)]. *)
Definition scatter_col (predictions : (predictions_t F)) (out_table : matrix F)
    (jc : nat * list string) : result (matrix F) :=
  let '(j, col) := jc in
  p_id ← getitem col 0;
  c1 ← getitem col 1;
  d ← of_option ValueError (float_of_string c1);
  let day := str_of_float d in
  v ← of_option KeyError (predictions !! (p_id, day));
  assign_col out_table 2 (j + 1) v.

(** [in_table[:,1:].T]: the columns of the table after the first. *)
Definition data_columns (in_table : list (list string)) : list (list string) :=
  (λ j, (λ row, row !!! j) <$> in_table) <$> seq 1 (length (default [] (head in_table)) - 1).

(** [write_table] up to the end of its scatter loop; [in_table] is the
    array [np.loadtxt] read from the reference file.  The conversion of
    [out_table] to text and [np.savetxt] are not part of the model. *)
Definition write_table (IDs : list string) (Y_pred : list (matrix F)) (T : list (list F))
    (in_table : list (list string)) : result (matrix F) :=
  predictions ← rfold add_predictions ∅ (zip (zip IDs Y_pred) T);
  let out_table :=
    replicate (length in_table) (replicate (length (default [] (head in_table))) f_zero) in
  rfold (scatter_col predictions) out_table (enumerate (data_columns in_table)).
End TableScatter.

(** ** An instance for examples: integer-valued floats *)

Module ZFloat.
Fixpoint digits_go (acc : N) (s : string) : option N :=
  match s with
  | EmptyString => Some acc
  | String c s' =>
      match Ascii.is_nat c with
      | Some d => digits_go (acc * 10 + N.of_nat d)%N s'
      | None => None
      end
  end.

Definition digits (s : string) : option N :=
  match s with
  | EmptyString => None
  | _ => digits_go 0%N s
  end.

(** Decimal integers with an optional sign and an optional [.0]. *)
Definition drop_point_zero (s : string) : string :=
  match str_split "."%char s with
  | [i; "0"] => i
  | _ => s
  end.

Definition parse (s : string) : option Z :=
  let s := drop_point_zero s in
  match s with
  | String "-"%char s' => (λ n, (- Z.of_N n)%Z) <$> digits s'
  | String "+"%char s' => Z.of_N <$> digits s'
  | _ => Z.of_N <$> digits s
  end.

Definition show (z : Z) : string := pretty z +:+ ".0".

#[global] Instance float64 : Float64 Z := {|
  f_zero := 0%Z;
  f_one := 1%Z;
  f_ltb := Z.ltb;
  f_leb := Z.leb;
  f_eqb := Z.eqb;
  float_of_string := parse;
  str_of_float := show;
|}.

(** Sorts for the examples: ascending by [leb], equal values ordered by
    [tie] on their indices. *)
Definition tie_argsort_le {A} `{Inhabited A} (tie : nat → nat → bool)
    (leb : A → A → bool) (l : list A) (i j : nat) : bool :=
  leb (l !!! i) (l !!! j) && (negb (leb (l !!! j) (l !!! i)) || tie i j).

Definition tie_argsort {A} `{Inhabited A} (tie : nat → nat → bool)
    (leb : A → A → bool) : Argsort A :=
  λ l, merge_sort (λ i j, tie_argsort_le tie leb l i j) (seq 0 (length l)).

(** Equal values stay in index order. *)
#[global] Instance argsort_string : Argsort string := tie_argsort Nat.leb String.leb.
#[global] Instance argsort_Z : Argsort Z :=
  tie_argsort (H:=float_inhabited) Nat.leb Z.leb.

(** Equal values come out in reverse index order. *)
Definition argsort_Z_desc : Argsort Z :=
  tie_argsort (H:=float_inhabited) (λ i j, (j <=? i)%nat) Z.leb.
End ZFloat.

(** ** Notions used to state the properties *)

(** The event-type name of every row: its second cell. *)
Definition type_names (sep : ascii) (rows : list string) : list string :=
  (λ line, default "" (fields sep line !! 1)) <$> rows.

(** The names of a list in the order in which each is first met, after
    the names already in [acc]. *)
Definition first_seen (acc : list string) (names : list string) : list string :=
  foldl (λ acc x, if contains x acc then acc else (acc ++ [x])%list) acc names.

(** Cell [i] of a row exists and [float] accepts it. *)
Definition numeric_at (F : Type) `{Float64 F} (row : list string) (i : nat) : bool :=
  match row !! i ≫= float_of_string (F:=F) with
  | Some _ => true
  | None => false
  end.

(** What the first loop of [parse_event_table] requires of a row: the
    column count of the first row, a numeric start day and end day. *)
Definition row_checked (F : Type) `{Float64 F} (sep : ascii) (n_col : nat)
    (line : string) : bool :=
  (length (fields sep line) =? n_col)%nat
  && numeric_at F (fields sep line) 2
  && numeric_at F (fields sep line) 3.

(** The row has a fifth cell and [float] rejects it. *)
Definition bad_magnitude (F : Type) `{Float64 F} (sep : ascii) (line : string) : bool :=
  match fields sep line !! 4 with
  | Some c4 => negb (numeric_at F (fields sep line) 4)
  | None => false
  end.

(** [m[i, j]] *)
Definition cell {A} (m : list (list A)) (i j : nat) : option A :=
  m !! i ≫= (.!! j).

(** [m] has [n] rows of [k] cells each. *)
Definition has_shape {A} (n k : nat) (m : list (list A)) : bool :=
  (length m =? n)%nat && forallb (λ row, (length row =? k)%nat) m.

(** The window test for slot [i] of a day vector: day [i] lies in
    [[start, end]], or the event starts at or after day [i], ends at or
    before day [i+1] and starts before day [i+1]. *)
Definition in_window {F : Type} `{Float64 F} (days : list F) (ev : event F)
    (i : nat) : bool :=
  (f_leb (start_day ev) (days !!! i) && f_leb (days !!! i) (end_day ev))
  || (f_leb (days !!! i) (start_day ev)
      && f_leb (end_day ev) (days !!! (i + 1))
      && f_ltb (start_day ev) (days !!! (i + 1))).

(** What one event record leaves in the effect matrix. *)
Definition encoded {F : Type} `{Float64 F} (days : list F) (ev : event F)
    (effects : matrix F) : matrix F :=
  imap (λ i row,
          if (i <? length days - 1)%nat then
            if in_window days ev i then <[event_idx ev := event_size ev]> row else row
          else
            <[event_idx ev :=
                if f_eqb (start_day ev) (default f_zero (last days))
                then event_size ev else f_zero]> row)
       effects.

(** The dictionary key [write_table] looks up for a reference column:
    [(col[0], str(float(col[1])))]. *)
Definition column_key (F : Type) `{Float64 F} (col : list string)
    : option (string * string) :=
  p_id ← col !! 0;
  c1 ← col !! 1;
  d ← float_of_string (F:=F) c1;
  Some (p_id, str_of_float d).

(** The reference column asks for a prediction that was not supplied. *)
Definition missing_prediction {F : Type} `{Float64 F}
    (predictions : gmap (string * string) (list F)) (col : list string) : bool :=
  match column_key F col with
  | Some key => bool_decide (predictions !! key = None)
  | None => false
  end.

(** [m[:, j]] *)
Definition column_at {A} `{Inhabited A} (m : list (list A)) (j : nat) : list A :=
  (λ row, row !!! j) <$> m.

(** The columns of the abundance table that belong to subject [s]. *)
Definition subject_columns (otu_seq_id : list string) (s : string) : list nat :=
  argwhere (λ x, bool_decide (x = s)) otu_seq_id.

(** Every entry is less than the next one. *)
Fixpoint strictly_increasing {F : Type} `{Float64 F} (l : list F) : bool :=
  match l with
  | x :: (y :: _) as l' => f_ltb x y && strictly_increasing l'
  | _ => true
  end.

(** The first position of [t] whose entry equals [d] under [==]. *)
Fixpoint first_equal {F : Type} `{Float64 F} (t : list F) (d : F) : option nat :=
  match t with
  | [] => None
  | x :: t' => if f_eqb x d then Some 0 else S <$> first_equal t' d
  end.

(** The columns of subject [s], as indices into the table that was read,
    in the order the two sorts leave them: the columns are put in the order
    [np.argsort] gives the ids, those of [s] are selected, and these are put
    in the order [np.argsort] gives their times ([row0] is the row of
    times). *)
Definition column_order {F : Type} `{Float64 F} `{!Argsort string} `{!Argsort F}
    (otu_seq_id : list string) (row0 : list F) (s : string) : list nat :=
  let sort_by_seq := argsort otu_seq_id in
  let of_s :=
    take_at sort_by_seq
      (argwhere (λ x, bool_decide (x = s)) (take_at otu_seq_id sort_by_seq)) in
  take_at of_s (argsort (take_at row0 of_s)).

(** [y] and [t] are the counts and times read from the table along the
    columns [cs]: [t] lists the time of every column of [cs], one entry per
    column, and row [k] of [y] is the count column of the first column of
    [cs] whose time equals [t[k]] (no count at all when [t[k]] equals no
    entry of [t], which is the case of NaN). *)
Definition aligned {F : Type} `{Float64 F} (otu_table : matrix F)
    (row0 : list F) (cs : list nat) (y : matrix F) (t : list F) : Prop :=
  otu_table !! 0 = Some row0
  ∧ t = take_at row0 cs
  ∧ length y = length t
  ∧ ∀ k, k < length t →
      y !! k = Some (match first_equal t (t !!! k) with
                     | Some j => column_at (tail otu_table) (cs !!! j)
                     | None => []
                     end).

(** Entries of [t] at different positions differ, and every entry equals
    itself (none is NaN). *)
Definition distinct_times {F : Type} `{Float64 F} (t : list F) : Prop :=
  ∀ j k a b, t !! j = Some a → t !! k = Some b → f_eqb a b = bool_decide (j = k).

(** The counts of the columns [cs] of the table, one row per column. *)
Definition count_columns {F : Type} `{Float64 F} (otu_table : matrix F)
    (cs : list nat) : matrix F :=
  column_at (tail otu_table) <$> cs.

(** [y] holds the count column of every column of subject [s], each once. *)
Definition holds_all_columns {F : Type} `{Float64 F} (otu_table : matrix F)
    (otu_seq_id : list string) (s : string) (y : matrix F) : Prop :=
  ∃ cs, cs ≡ₚ subject_columns otu_seq_id s
    ∧ y = count_columns otu_table cs.

(** The records of the event rows whose sequence id is [s], in row order. *)
Fixpoint records_of {E : Type} (s : string) (event_seq_id : list string)
    (event_table : list E) : list E :=
  match event_seq_id, event_table with
  | id :: ids, ev :: evs =>
      if decide (id = s) then ev :: records_of s ids evs else records_of s ids evs
  | _, _ => []
  end.

(** The computation returned a value. *)
Definition is_Ok {A} (r : result A) : bool :=
  match r with
  | Ok _ => true
  | Raise _ => false
  end.

(** What slot [(i, t)] of an effect matrix holds after one more event
    record, when it held [v] before: records of another type leave it;
    before the last day a record of type [t] writes its magnitude when the
    window test passes; on the last day it writes its magnitude or 0. *)
Definition slot_after {F : Type} `{Float64 F} (days : list F) (t i : nat)
    (v : F) (ev : event F) : F :=
  if (event_idx ev =? t)%nat then
    if (i <? length days - 1)%nat then
      if in_window days ev i then event_size ev else v
    else
      if f_eqb (start_day ev) (default f_zero (last days)) then event_size ev else f_zero
  else v.

(** Slot [(i, t)] after the records [evs], taken in order, starting from 0. *)
Definition slot_value {F : Type} `{Float64 F} (days : list F) (evs : list (event F))
    (t i : nat) : F :=
  foldl (slot_after days t i) f_zero evs.

(** [u] is the effect matrix of subject [s] on the time vector [t]:
    without an event file, one column of zeros; with one, a row per entry of
    [t], a column per event type, and in every slot what the records of the
    event rows of [s] leave there. *)
Definition encodes_events {F : Type} `{Float64 F} (event_lines : option (list string))
    (s : string) (t : list F) (u : matrix F) : Prop :=
  match event_lines with
  | None => u = replicate (length t) [f_zero]
  | Some lines =>
      ∃ events event_to_int event_seq_id event_names,
        parse_event_table lines ","%char true
        = Ok (events, event_to_int, event_seq_id, event_names)
        ∧ has_shape (length t) (length event_names) u = true
        ∧ ∀ r c, r < length t → c < length event_names →
            cell u r c = Some (slot_value t (records_of s event_seq_id events) c r)
  end.

(** Every record of the event table has a type index below the number of
    event types (no event arguments: nothing to check). *)
Definition events_in_range {F : Type}
    (evs : option (list (event F) * list string * gmap string nat)) : bool :=
  match evs with
  | Some (event_table, _, event_to_int) =>
      forallb (λ ev, (event_idx ev <? size event_to_int)%nat) event_table
  | None => true
  end.

(** The prediction row that [write_table] finds for a reference column
    (empty when there is none). *)
Definition prediction_of {F : Type} `{Float64 F}
    (predictions : gmap (string * string) (list F)) (col : list string) : list F :=
  default [] (column_key F col ≫= (predictions !!.)).

(** * Properties *)

(** ** The result monad *)

Lemma bind_Ok {A B} (k : A → result B) (a : A) : (Ok a ≫= k) = k a.
Proof. reflexivity. Qed.

Lemma bind_Raise {A B} (k : A → result B) (e : exn) : (Raise e ≫= k) = Raise e.
Proof. reflexivity. Qed.

Lemma bind_Ok_inv {A B} (m : result A) (k : A → result B) (b : B) :
  (m ≫= k) = Ok b → ∃ a, m = Ok a ∧ k a = Ok b.
Proof. destruct m as [a|e]; [eauto | discriminate]. Qed.

Lemma rfold_app {A S} (body : S → A → result S) (s : S) (l1 l2 : list A) :
  rfold body s (l1 ++ l2)%list = (rfold body s l1 ≫= λ s', rfold body s' l2).
Proof.
  revert s. induction l1 as [|x l1 IH]; intros s; simpl; [done|].
  destruct (body s x) as [s'|e]; simpl; [apply IH | done].
Qed.

Lemma rfold_cons {A S} (body : S → A → result S) (s : S) (x : A) (l : list A) :
  rfold body s (x :: l) = (body s x ≫= λ s', rfold body s' l).
Proof. reflexivity. Qed.

Lemma rfold_snoc {A S} (body : S → A → result S) (s : S) (l : list A) (x : A) :
  rfold body s (l ++ [x])%list = (rfold body s l ≫= λ s', body s' x).
Proof.
  rewrite rfold_app. destruct (rfold body s l) as [s'|e]; simpl; [|done].
  by destruct (body s' x).
Qed.

Lemma rmap_length {A B} (f : A → result B) (l : list A) (ys : list B) :
  rmap f l = Ok ys → length ys = length l.
Proof.
  revert ys. induction l as [|x l IH]; intros ys; simpl.
  - by intros [= <-].
  - intros (y & _ & Hk)%bind_Ok_inv.
    apply bind_Ok_inv in Hk as (ys' & Hys & [= <-]).
    simpl. f_equal. by apply IH.
Qed.

Lemma rmap_lookup {A B} (f : A → result B) (l : list A) (ys : list B) (i : nat) (x : A) :
  rmap f l = Ok ys → l !! i = Some x → ∃ y, ys !! i = Some y ∧ f x = Ok y.
Proof.
  revert ys i. induction l as [|x' l IH]; intros ys i; simpl; [done|].
  intros (y & Hy & Hk)%bind_Ok_inv.
  apply bind_Ok_inv in Hk as (ys' & Hys & [= <-]).
  destruct i as [|i]; simpl.
  - intros [= ->]. eauto.
  - intros Hi. by eapply IH.
Qed.

(** ** TableParser *)

Section TableParserFacts.
Context {F : Type} `{Float64 F}.

(** Rows that parse give a matrix with one row per line, each as wide as
    the header. *)
Lemma parse_otu_rows_shape sep hr n_col idx lines (table : matrix F) :
  parse_otu_rows sep hr n_col idx lines = Ok table →
  length table = length lines ∧ Forall (λ row, length row = n_col) table.
Proof.
  revert idx table. induction lines as [|line rest IH]; intros idx table; simpl.
  - intros [= <-]. by split.
  - destruct (length (cells sep hr line) =? n_col)%nat eqn:Hn; simpl; [|done].
    destruct (floats_of_strings _) as [row|] eqn:Hrow; [|done].
    destruct (_ && _); [done|].
    intros (table' & Htable & [= <-])%bind_Ok_inv.
    destruct (IH _ _ Htable) as [Hlen Hall]. split; simpl; [by f_equal|].
    constructor; [|done].
    apply Nat.eqb_eq in Hn. rewrite <-Hn.
    unfold floats_of_strings in Hrow. by apply length_mapM in Hrow.
Qed.

(** What the sign check does cover: every row with [idx > 1]. *)
Lemma parse_otu_rows_nonneg sep hr n_col idx lines (table : matrix F) :
  parse_otu_rows sep hr n_col idx lines = Ok table →
  ∀ k row, table !! k = Some row → 1 < idx + k → any_negative row = false.
Proof.
  revert idx table. induction lines as [|line rest IH]; intros idx table; simpl.
  - by intros [= <-] k row.
  - destruct (length (cells sep hr line) =? n_col)%nat; simpl; [|done].
    destruct (floats_of_strings _) as [row|]; [|done].
    destruct (1 <? idx)%nat eqn:Hidx; simpl.
    + destruct (any_negative row) eqn:Hneg; [done|].
      intros (table' & Htable & [= <-])%bind_Ok_inv [|k] row'; simpl.
      * by intros [= <-].
      * intros Hk _. eapply (IH _ _ Htable k); [done|].
        apply Nat.ltb_lt in Hidx. lia.
    + intros (table' & Htable & [= <-])%bind_Ok_inv [|k] row'; simpl.
      * intros _ Hlt. apply Nat.ltb_ge in Hidx. lia.
      * intros Hk Hlt. eapply (IH _ _ Htable k); [done|lia].
Qed.

Lemma parse_otu_rows_mismatch sep hr n_col idx pre bad post (table : matrix F) :
  parse_otu_rows sep hr n_col idx pre = Ok table →
  length (cells sep hr bad) ≠ n_col →
  parse_otu_rows (F:=F) sep hr n_col idx (pre ++ bad :: post)%list = Raise TypeError.
Proof.
  intros Hpre Hbad. revert idx table Hpre.
  induction pre as [|line rest IH]; intros idx table; simpl.
  - intros _. by apply Nat.eqb_neq in Hbad as ->.
  - destruct (length (cells sep hr line) =? n_col)%nat; simpl; [|done].
    destruct (floats_of_strings _) as [row|]; [|done].
    destruct (_ && _); [done|].
    intros (table' & Htable & _)%bind_Ok_inv.
    by rewrite (IH _ _ Htable).
Qed.
End TableParserFacts.

(** C4: the sign check of [parse_otu_table] is guarded by [idx > 1], where
    [idx] counts from the time-point row: the first count row (matrix row 1)
    is never checked.  A table whose first count row holds [-5] is returned,
    while the same cell one row further down is rejected. *)
Theorem parse_otu_table_negative_first_count_row :
  parse_otu_table (F:=Z)
    (readlines ("id,A,B" +:+ nl +:+ "day,1,2" +:+ nl +:+ "otu1,-5,3" +:+ nl +:+
                "otu2,1,2" +:+ nl)) ","%char true
  = Ok (["A"; "B"], [[1; 2]; [-5; 3]; [1; 2]]%Z)
  ∧ any_negative [-5; 3]%Z = true
  ∧ parse_otu_table (F:=Z)
      (readlines ("id,A,B" +:+ nl +:+ "day,1,2" +:+ nl +:+ "otu1,1,2" +:+ nl +:+
                  "otu2,-5,3" +:+ nl)) ","%char true
    = Raise (SystemExit "Error parsing OTU table: row 2 has negative entry.").
Proof. repeat split; vm_compute; reflexivity. Qed.

(** C5: when a data row has a column count different from the header's and
    the rows before it are accepted, [parse_otu_table] raises TypeError (the
    message concatenates a string and the integer [n_col]); no message naming
    the row is produced. *)
Theorem parse_otu_table_column_mismatch {F : Type} `{Float64 F}
    (sep : ascii) (has_rownames : bool) (l0 : string) (pre : list string)
    (bad : string) (post : list string) (r : list string * matrix F) :
  parse_otu_table (l0 :: pre) sep has_rownames = Ok r →
  length (cells sep has_rownames bad) ≠ header_n_col sep has_rownames l0 →
  parse_otu_table (F:=F) (l0 :: pre ++ bad :: post) sep has_rownames = Raise TypeError.
Proof.
  unfold parse_otu_table. intros (table & Hpre & _)%bind_Ok_inv Hbad.
  by rewrite (parse_otu_rows_mismatch _ _ _ _ _ _ _ _ Hpre Hbad).
Qed.

Lemma parse_otu_table_column_mismatch_witness :
  parse_otu_table (F:=Z)
    (readlines ("id,A,A,B,B" +:+ nl +:+ "day,1,2,1,2" +:+ nl +:+ "otu1,1,2,3,4" +:+ nl +:+
                "otu2,1,2,3" +:+ nl +:+ "otu3,1,2,3,4" +:+ nl)) ","%char true
  = Raise TypeError.
Proof.
  apply (parse_otu_table_column_mismatch (F:=Z) ","%char true
           ("id,A,A,B,B" +:+ nl) ["day,1,2,1,2" +:+ nl; "otu1,1,2,3,4" +:+ nl]
           ("otu2,1,2,3" +:+ nl) ["otu3,1,2,3,4" +:+ nl]
           (["A"; "A"; "B"; "B"], [[1; 2; 1; 2]; [1; 2; 3; 4]]%Z)).
  - vm_compute. reflexivity.
  - vm_compute. lia.
Defined.

(** ** Lists, enumeration and dictionaries *)

Lemma enumerate_lookup {A} (l : list A) (i : nat) :
  enumerate l !! i = (λ x, (i, x)) <$> l !! i.
Proof.
  unfold enumerate. rewrite lookup_zip_with.
  destruct (l !! i) as [x|] eqn:Hx; simpl.
  - apply lookup_lt_Some in Hx as Hlt. by rewrite lookup_seq_lt.
  - by destruct (seq 0 (length l) !! i).
Qed.

Lemma elem_of_enumerate {A} (l : list A) (i : nat) (x : A) :
  (i, x) ∈ enumerate l ↔ l !! i = Some x.
Proof.
  rewrite list_elem_of_lookup. split.
  - intros [k Hk]. rewrite enumerate_lookup in Hk.
    destruct (l !! k) as [y|] eqn:Hy; simplify_eq/=. done.
  - intros Hx. exists i. by rewrite enumerate_lookup, Hx.
Qed.

Lemma dict_of_list_snoc {K V} `{Countable K} (pairs : list (K * V)) (p : K * V) :
  dict_of_list (pairs ++ [p])%list = <[p.1 := p.2]> (dict_of_list pairs).
Proof. unfold dict_of_list. by rewrite foldl_app. Qed.

Lemma dict_of_list_lookup {K V} `{Countable K} (pairs : list (K * V)) (k : K) (v : V) :
  NoDup pairs.*1 →
  dict_of_list pairs !! k = Some v ↔ (k, v) ∈ pairs.
Proof.
  induction pairs as [|[k' v'] pairs IH] using rev_ind.
  - intros _. unfold dict_of_list. simpl. rewrite lookup_empty.
    split; [done|]. by intros ?%not_elem_of_nil.
  - rewrite fmap_app, NoDup_app. intros (Hnd & Hfresh & _).
    rewrite dict_of_list_snoc, elem_of_app, list_elem_of_singleton. simpl.
    destruct (decide (k' = k)) as [->|Hne].
    + rewrite lookup_insert_eq. split.
      * intros [= ->]. by right.
      * intros [Hin|[= ->]]; [|done].
        exfalso. apply (Hfresh k); [|simpl; left].
        apply list_elem_of_fmap. by exists (k, v).
    + rewrite lookup_insert_ne by done. rewrite (IH Hnd). split; [by left|].
      intros [?|[= ? ?]]; [done|]. congruence.
Qed.

(** The dictionary built by [dict([(e, i) for i, e in enumerate(l)])]. *)
Lemma index_dict_lookup (l : list string) (x : string) (i : nat) :
  NoDup l →
  dict_of_list ((λ '(i, e), (e, i)) <$> enumerate l) !! x = Some i ↔ l !! i = Some x.
Proof.
  intros Hnd. rewrite dict_of_list_lookup.
  - rewrite list_elem_of_fmap. split.
    + intros ([j y] & [= -> ->] & Hin). by apply elem_of_enumerate.
    + intros Hx. exists (i, x). split; [done|]. by apply elem_of_enumerate.
  - assert (((λ '(i, e), (e, i)) <$> enumerate l).*1 = l) as ->; [|done].
    apply list_eq. intros k. rewrite !list_lookup_fmap, enumerate_lookup.
    by destruct (l !! k).
Qed.

(** ** First-seen order *)

Lemma first_seen_app acc l1 l2 :
  first_seen acc (l1 ++ l2)%list = first_seen (first_seen acc l1) l2.
Proof. unfold first_seen. by rewrite foldl_app. Qed.

Lemma first_seen_prefix acc names : acc `prefix_of` first_seen acc names.
Proof.
  revert acc. induction names as [|x names IH]; intros acc; simpl; [done|].
  destruct (contains x acc); [apply IH|].
  etrans; [|apply IH]. by apply prefix_app_r.
Qed.

Lemma first_seen_elem_of acc names x :
  x ∈ first_seen acc names ↔ x ∈ acc ∨ x ∈ names.
Proof.
  revert acc. induction names as [|y names IH]; intros acc; simpl.
  - split; [by left|]. by intros [?|?%not_elem_of_nil].
  - rewrite elem_of_cons. unfold contains. case_bool_decide as Hy.
    + rewrite IH. split; [tauto|]. intros [?|[->|?]]; tauto.
    + rewrite IH, elem_of_app, list_elem_of_singleton. tauto.
Qed.

Lemma first_seen_NoDup acc names : NoDup acc → NoDup (first_seen acc names).
Proof.
  revert acc. induction names as [|y names IH]; intros acc Hnd; simpl; [done|].
  unfold contains. case_bool_decide as Hy; [by apply IH|].
  apply IH. apply NoDup_app. split_and!; [done| |apply NoDup_singleton].
  intros x Hx ->%list_elem_of_singleton. done.
Qed.

Lemma first_seen_length names :
  length (first_seen [] names) = size (list_to_set names : gset string).
Proof.
  rewrite <-(size_list_to_set (C:=gset string) (first_seen [] names))
    by apply first_seen_NoDup, NoDup_nil_2.
  f_equal. apply set_eq. intros x.
  rewrite !elem_of_list_to_set, first_seen_elem_of.
  split; [|by right]. by intros [?%not_elem_of_nil|?].
Qed.

(** A name stands at the position given by the number of distinct names
    that precede its first occurrence. *)
Lemma first_seen_rank names p x :
  names !! p = Some x → x ∉ take p names →
  first_seen [] names !! size (list_to_set (take p names) : gset string) = Some x.
Proof.
  intros Hp Hfresh.
  rewrite <-(take_drop_middle _ _ _ Hp) at 1.
  rewrite first_seen_app. simpl.
  unfold contains. case_bool_decide as Hin.
  { apply first_seen_elem_of in Hin as [?%not_elem_of_nil|?]; done. }
  rewrite <-first_seen_length.
  eapply prefix_lookup_Some; [|apply first_seen_prefix].
  by rewrite lookup_app_r, Nat.sub_diag.
Qed.

(** ** EventParser *)

Lemma rmap_Raise {A B} (f : A → result B) (l : list A) (e : exn) :
  (∀ y, y ∈ l → f y = Raise e ∨ ∃ r, f y = Ok r) →
  (∃ x, x ∈ l ∧ f x = Raise e) →
  rmap f l = Raise e.
Proof.
  induction l as [|y l IH]; intros Hall (x & Hx & Hfx).
  - by apply not_elem_of_nil in Hx.
  - simpl. destruct (Hall y) as [Hy|[r Hy]]; [by left|by rewrite Hy|].
    rewrite Hy. simpl.
    apply elem_of_cons in Hx as [->|Hx]; [congruence|].
    rewrite IH; [done| |by eauto].
    intros z Hz. apply Hall. by right.
Qed.

Section EventParserFacts.
Context {F : Type} `{Float64 F}.

Lemma numeric_at_Some (row : list string) (i : nat) :
  numeric_at F row i = true →
  ∃ c (v : F), row !! i = Some c ∧ float_of_string c = Some v.
Proof.
  unfold numeric_at. destruct (row !! i) as [c|]; simpl; [|done].
  destruct (float_of_string c) as [v|] eqn:Hv; [|done]. eauto.
Qed.

Lemma scan_event_rows_checked sep hh n_col idx acc rows :
  forallb (row_checked F sep n_col) rows = true →
  scan_event_rows (F:=F) sep hh n_col idx acc rows
  = Ok (first_seen acc (type_names sep rows)).
Proof.
  revert idx acc. induction rows as [|line rows IH]; intros idx acc; simpl; [done|].
  intros [Hline Hrows]%andb_true_iff.
  apply andb_true_iff in Hline as [[Hlen H2]%andb_true_iff H3].
  rewrite Hlen. simpl.
  apply numeric_at_Some in H2 as (c2 & v2 & Hc2 & Hv2).
  apply numeric_at_Some in H3 as (c3 & v3 & Hc3 & Hv3).
  unfold getitem. rewrite Hc2. simpl. rewrite Hv2, Hc3. simpl. rewrite Hv3.
  destruct (fields sep line !! 1) as [c1|] eqn:Hc1; simpl.
  - by apply IH.
  - apply lookup_ge_None in Hc1. apply lookup_lt_Some in Hc2. lia.
Qed.

Lemma scan_event_rows_Ok sep hh n_col idx acc rows types :
  scan_event_rows (F:=F) sep hh n_col idx acc rows = Ok types →
  types = first_seen acc (type_names sep rows)
  ∧ forallb (row_checked F sep n_col) rows = true.
Proof.
  revert idx acc. induction rows as [|line rows IH]; intros idx acc; simpl.
  - by intros [= <-].
  - unfold row_checked at 1, numeric_at, getitem.
    destruct (length (fields sep line) =? n_col)%nat; simpl; [|done].
    destruct (fields sep line !! 2) as [c2|]; simpl; [|done].
    destruct (float_of_string c2); [|done].
    destruct (fields sep line !! 3) as [c3|]; simpl; [|done].
    destruct (float_of_string c3); [|done].
    destruct (fields sep line !! 1) as [c1|]; simpl; [|done].
    apply IH.
Qed.

(** Second loop on a row the first loop let through: the only exception
    it can raise is the ValueError of [float(line[4])]. *)
Lemma event_of_line_checked sep n_col (event_to_int : gmap string nat) line :
  row_checked F sep n_col line = true →
  is_Some (event_to_int !! default "" (fields sep line !! 1)) →
  (bad_magnitude F sep line = true →
   event_of_line (F:=F) sep event_to_int line = Raise ValueError)
  ∧ (bad_magnitude F sep line = false →
     ∃ r, event_of_line (F:=F) sep event_to_int line = Ok r).
Proof.
  intros [[Hlen H2]%andb_true_iff H3]%andb_true_iff [e_idx He].
  apply numeric_at_Some in H2 as (c2 & v2 & Hc2 & Hv2).
  apply numeric_at_Some in H3 as (c3 & v3 & Hc3 & Hv3).
  unfold event_of_line, bad_magnitude, numeric_at, getitem.
  destruct (fields sep line !! 0) as [c0|] eqn:Hc0; simpl;
    [|apply lookup_ge_None in Hc0; apply lookup_lt_Some in Hc2; lia].
  destruct (fields sep line !! 1) as [c1|] eqn:Hc1; simpl;
    [|apply lookup_ge_None in Hc1; apply lookup_lt_Some in Hc2; lia].
  simpl in He. rewrite He, Hc2. simpl. rewrite Hv2, Hc3. simpl. rewrite Hv3. simpl.
  destruct (fields sep line !! 4) as [c4|] eqn:Hc4; simpl.
  - apply lookup_lt_Some in Hc4 as Hlt. apply Nat.ltb_lt in Hlt as ->. simpl.
    destruct (float_of_string c4) as [v4|]; simpl; split; try done. eauto.
  - apply lookup_ge_None in Hc4. apply Nat.ltb_ge in Hc4 as ->.
    split; [done|]. eauto.
Qed.

Lemma parse_event_table_unfold (lines : list string) (sep : ascii) (hh : bool)
    (l0 : string) :
  (if hh then tail lines else lines) !! 0 = Some l0 →
  forallb (row_checked F sep (length (fields sep l0)))
    (if hh then tail lines else lines) = true →
  parse_event_table (F:=F) lines sep hh
  = (let rows := if hh then tail lines else lines in
     let event_types := first_seen [] (type_names sep rows) in
     let event_to_int := dict_of_list ((λ '(i, e), (e, i)) <$> enumerate event_types) in
     rows' ← rmap (event_of_line sep event_to_int) rows;
     Ok (rows'.*1, event_to_int, rows'.*2, event_types)).
Proof.
  intros Hl0 Hrows. unfold parse_event_table, getitem. rewrite Hl0. simpl.
  by rewrite (scan_event_rows_checked _ _ _ _ _ _ Hrows).
Qed.

Lemma parse_event_table_Ok lines sep hh events event_to_int ids types :
  parse_event_table (F:=F) lines sep hh = Ok (events, event_to_int, ids, types) →
  types = first_seen [] (type_names sep (if hh then tail lines else lines))
  ∧ event_to_int = dict_of_list ((λ '(i, e), (e, i)) <$> enumerate types)
  ∧ length events = length ids.
Proof.
  unfold parse_event_table.
  intros (l0 & _ & (types' & Hscan & Hk)%bind_Ok_inv)%bind_Ok_inv.
  apply bind_Ok_inv in Hk as (rows & _ & [= <- <- <- <-]).
  apply scan_event_rows_Ok in Hscan as [-> _].
  by rewrite !length_fmap.
Qed.
End EventParserFacts.

(** C9: the type index of [parse_event_table] lists the distinct event-type
    names in the order of their first appearance; each name is mapped to
    the number of distinct names that precede its first occurrence; the
    map is a bijection between the names and the positions of the type
    list, i.e. onto [0, number of distinct names); any two successful
    parses of the same text give the same map and the same list. *)
Theorem parse_event_table_type_index {F : Type} `{Float64 F}
    (lines : list string) (sep : ascii) (has_header : bool)
    (events : list (event F)) (event_to_int : gmap string nat)
    (seq_id event_types : list string) :
  parse_event_table lines sep has_header = Ok (events, event_to_int, seq_id, event_types) →
  let names := type_names sep (if has_header then tail lines else lines) in
  NoDup event_types
  ∧ (∀ x, x ∈ event_types ↔ x ∈ names)
  ∧ length event_types = size (list_to_set names : gset string)
  ∧ (∀ p x, names !! p = Some x → x ∉ take p names →
       event_to_int !! x = Some (size (list_to_set (take p names) : gset string)))
  ∧ (∀ x i, event_to_int !! x = Some i ↔ event_types !! i = Some x)
  ∧ (∀ i, i < length event_types ↔ ∃ x, event_to_int !! x = Some i)
  ∧ (∀ events' event_to_int' seq_id' event_types',
       parse_event_table lines sep has_header
       = Ok (events', event_to_int', seq_id', event_types') →
       event_to_int' = event_to_int ∧ event_types' = event_types).
Proof.
  intros Hparse names.
  destruct (parse_event_table_Ok _ _ _ _ _ _ _ Hparse) as (Htypes & Hdict & _).
  fold names in Htypes.
  assert (NoDup event_types) as Hnd.
  { rewrite Htypes. apply first_seen_NoDup, NoDup_nil_2. }
  assert (∀ x i, event_to_int !! x = Some i ↔ event_types !! i = Some x) as Hbij.
  { intros x i. rewrite Hdict. by apply index_dict_lookup. }
  split_and!; try done.
  - intros x. rewrite Htypes, first_seen_elem_of.
    split; [|by right]. by intros [?%not_elem_of_nil|?].
  - rewrite Htypes. apply first_seen_length.
  - intros p x Hp Hfresh. apply Hbij. rewrite Htypes.
    by apply first_seen_rank.
  - intros i. split.
    + intros [x Hx]%lookup_lt_is_Some. exists x. by apply Hbij.
    + intros [x Hx]. apply Hbij in Hx. by eapply lookup_lt_Some.
  - intros events' event_to_int' seq_id' event_types' Hparse'.
    rewrite Hparse in Hparse'. by injection Hparse' as <- <- <- <-.
Qed.

Lemma parse_event_table_type_index_witness :
  ∃ event_to_int : gmap string nat,
    event_to_int !! "abx" = Some 0 ∧ event_to_int !! "diet" = Some 1
    ∧ ∀ i, i < 2 ↔ ∃ x, event_to_int !! x = Some i.
Proof.
  pose (lines := readlines ("ID,eventID,startDay,endDay" +:+ nl +:+ "A,abx,2,5" +:+ nl +:+
                            "B,diet,1,1" +:+ nl +:+ "B,abx,1,1" +:+ nl)).
  pose (event_to_int := {["abx" := 0; "diet" := 1]} : gmap string nat).
  assert (parse_event_table (F:=Z) lines ","%char true
          = Ok ([mk_event 0 2 5 1; mk_event 1 1 1 1; mk_event 0 1 1 1]%Z,
                event_to_int, ["A"; "B"; "B"], ["abx"; "diet"])) as Hparse.
  { vm_compute. reflexivity. }
  destruct (parse_event_table_type_index _ _ _ _ _ _ _ Hparse)
    as (_ & _ & _ & Hrank & _ & Hdense & _).
  exists event_to_int. split_and!.
  - apply (Hrank 0 "abx"); [reflexivity|]. simpl. apply not_elem_of_nil.
  - apply (Hrank 1 "diet"); [reflexivity|]. vm_compute.
    intros Hin. apply list_elem_of_singleton in Hin. discriminate.
  - apply Hdense.
Defined.

Lemma index_dict_is_Some (l : list string) (x : string) :
  NoDup l → x ∈ l →
  is_Some (dict_of_list ((λ '(i, e), (e, i)) <$> enumerate l) !! x).
Proof.
  intros Hnd [i Hi]%list_elem_of_lookup. exists i. by apply index_dict_lookup.
Qed.

(** C10: the first loop of [parse_event_table] looks only at the column
    count and at the start-day and end-day cells.  Rows that satisfy this
    pass it whatever their fifth cell holds; when the fifth cell of some
    row is not numeric, the parse then ends in the second loop with the
    ValueError of [float(line[4])], not with a [print_error_and_die]
    message. *)
Theorem parse_event_table_magnitude_unchecked {F : Type} `{Float64 F}
    (lines : list string) (sep : ascii) (has_header : bool) (l0 : string) :
  let rows := if has_header then tail lines else lines in
  rows !! 0 = Some l0 →
  forallb (row_checked F sep (length (fields sep l0))) rows = true →
  existsb (bad_magnitude F sep) rows = true →
  (∃ event_types,
     scan_event_rows (F:=F) sep has_header (length (fields sep l0)) 0 [] rows
     = Ok event_types)
  ∧ parse_event_table (F:=F) lines sep has_header = Raise ValueError.
Proof.
  intros rows Hl0 Hrows Hbad. split.
  { eexists. by apply scan_event_rows_checked. }
  rewrite (parse_event_table_unfold _ _ _ _ Hl0 Hrows). fold rows. cbv zeta.
  set (event_types := first_seen [] (type_names sep rows)).
  set (event_to_int := dict_of_list _).
  assert (∀ line, line ∈ rows →
            is_Some (event_to_int !! default "" (fields sep line !! 1))) as Hdom.
  { intros line Hline. apply index_dict_is_Some.
    - apply first_seen_NoDup, NoDup_nil_2.
    - apply first_seen_elem_of. right. unfold type_names.
      apply list_elem_of_fmap. by exists line. }
  rewrite forallb_forall in Hrows.
  rewrite (rmap_Raise _ _ ValueError); [done| |].
  - intros line Hline.
    destruct (event_of_line_checked sep (length (fields sep l0)) event_to_int line)
      as [Hb Hg].
    { apply Hrows. by apply list_elem_of_In. }
    { by apply Hdom. }
    destruct (bad_magnitude F sep line); [left|right]; auto.
  - apply existsb_exists in Hbad as (line & Hline%list_elem_of_In & Hb).
    exists line. split; [done|].
    eapply (event_of_line_checked sep (length (fields sep l0)));
      [|by apply Hdom|done].
    apply Hrows. by apply list_elem_of_In.
Qed.

Lemma parse_event_table_magnitude_unchecked_witness :
  parse_event_table (F:=Z)
    (readlines ("ID,eventID,startDay,endDay,magnitude" +:+ nl +:+ "A,abx,2,5,3" +:+ nl +:+
                "B,diet,1,1,high" +:+ nl)) ","%char true
  = Raise ValueError.
Proof.
  apply (parse_event_table_magnitude_unchecked (F:=Z)
           (readlines ("ID,eventID,startDay,endDay,magnitude" +:+ nl +:+
                       "A,abx,2,5,3" +:+ nl +:+ "B,diet,1,1,high" +:+ nl))
           ","%char true ("A,abx,2,5,3" +:+ nl)).
  - vm_compute. reflexivity.
  - vm_compute. reflexivity.
  - vm_compute. reflexivity.
Defined.

(** ** EventEncoder *)

Lemma enumerate_snoc {A} (l : list A) (x : A) :
  enumerate (l ++ [x])%list = (enumerate l ++ [(length l, x)])%list.
Proof.
  unfold enumerate. rewrite length_app, seq_app. simpl.
  by rewrite zip_with_app by (by rewrite length_seq).
Qed.

Lemma has_shape_spec {A} (n k : nat) (m : list (list A)) :
  has_shape n k m = true ↔ length m = n ∧ ∀ i row, m !! i = Some row → length row = k.
Proof.
  unfold has_shape. rewrite andb_true_iff, Nat.eqb_eq, forallb_forall.
  split; intros [Hn Hrows]; (split; [done|]).
  - intros i row Hrow. apply Nat.eqb_eq, Hrows, list_elem_of_In.
    by eapply list_elem_of_lookup_2.
  - intros row [i Hi]%list_elem_of_In%list_elem_of_lookup.
    apply Nat.eqb_eq. by eapply Hrows.
Qed.

Lemma setitem2_Ok {A} (m : list (list A)) (i j : nat) (v : A) (row : list A) :
  m !! i = Some row → j < length row →
  setitem2 m i j v = Ok (<[i := <[j := v]> row]> m).
Proof.
  intros Hrow Hj. unfold setitem2. rewrite Hrow.
  by apply Nat.ltb_lt in Hj as ->.
Qed.

Section EncoderFacts.
Context {F : Type} `{Float64 F}.

Lemma encode_day_window (days : list F) (ev : event F) (effects : matrix F) (i : nat) :
  encode_day days ev effects (i, days !!! i)
  = if in_window days ev i
    then setitem2 effects i (event_idx ev) (event_size ev)
    else Ok effects.
Proof.
  unfold encode_day, in_window.
  destruct (f_leb (start_day ev) (days !!! i) && f_leb (days !!! i) (end_day ev));
    simpl; [done|].
  by destruct (f_leb (days !!! i) (start_day ev) && _ && _).
Qed.

(** The inner loop after its first [j] iterations. *)
Lemma encode_days_prefix (days : list F) (ev : event F) (effects : matrix F)
    (k j : nat) :
  has_shape (length days) k effects = true →
  event_idx ev < k →
  (j ≤ length days)%nat →
  rfold (encode_day days ev) effects (enumerate (take j days))
  = Ok (imap (λ i row,
               if (i <? j)%nat && in_window days ev i
               then <[event_idx ev := event_size ev]> row else row) effects).
Proof.
  intros [Hlen Hrows]%has_shape_spec Ht. induction j as [|j IH]; intros Hj.
  - simpl. f_equal. apply list_eq. intros i. rewrite list_lookup_imap.
    by destruct (effects !! i).
  - destruct (lookup_lt_is_Some_2 days j) as [d Hd]; [lia|].
    rewrite (take_S_r _ _ _ Hd), enumerate_snoc, rfold_snoc, IH, bind_Ok by lia.
    rewrite length_take_le by lia.
    rewrite <-(list_lookup_total_correct _ _ _ Hd), encode_day_window.
    destruct (lookup_lt_is_Some_2 effects j) as [row Hrow]; [lia|].
    destruct (in_window days ev j) eqn:Hw; simpl.
    + erewrite setitem2_Ok; [| |by rewrite (Hrows _ _ Hrow)].
      2:{ rewrite list_lookup_imap, Hrow. simpl. by rewrite Nat.ltb_irrefl. }
      f_equal. apply list_eq. intros i. rewrite list_lookup_imap.
      destruct (decide (i = j)) as [->|Hne].
      * rewrite list_lookup_insert_eq by (rewrite length_imap; lia).
        rewrite Hrow. simpl. rewrite Hw.
        by replace (j <? S j)%nat with true by (symmetry; apply Nat.ltb_lt; lia).
      * rewrite list_lookup_insert_ne, list_lookup_imap by done.
        destruct (effects !! i); simpl; [|done].
        destruct (Nat.ltb_spec i j), (Nat.ltb_spec i (S j)); try lia; done.
    + f_equal. apply list_eq. intros i. rewrite !list_lookup_imap.
      destruct (effects !! i); simpl; [|done].
      destruct (decide (i = j)) as [->|Hne].
      * by rewrite Hw, !andb_false_r.
      * destruct (Nat.ltb_spec i j), (Nat.ltb_spec i (S j)); try lia; done.
Qed.

(** One event record on a matrix with one row per day: the result is
    total and has the closed form [encoded]. *)
Lemma encode_event_closed (days : list F) (ev : event F) (effects : matrix F) (k : nat) :
  has_shape (length days) k effects = true →
  event_idx ev < k →
  0 < length days →
  encode_event days effects ev = Ok (encoded days ev effects).
Proof.
  intros Hshape Ht Hn. unfold encode_event.
  rewrite (encode_days_prefix _ _ _ k) by (done || lia).
  rewrite bind_Ok.
  apply has_shape_spec in Hshape as [Hlen Hrows].
  destruct (last days) as [d_last|] eqn:Hlast; simpl.
  2:{ apply last_None in Hlast. subst. simpl in Hn. lia. }
  rewrite length_imap.
  destruct (lookup_lt_is_Some_2 effects (length effects - 1)) as [row Hrow]; [lia|].
  erewrite setitem2_Ok; [| |by rewrite (Hrows _ _ Hrow)].
  2:{ rewrite list_lookup_imap, Hrow. simpl.
      by replace (length effects - 1 <? length days - 1)%nat with false
        by (symmetry; apply Nat.ltb_ge; lia). }
  f_equal. unfold encoded. apply list_eq. intros i. rewrite list_lookup_imap.
  destruct (decide (i = length effects - 1)) as [->|Hne].
  - rewrite list_lookup_insert_eq by (rewrite length_imap; lia).
    rewrite Hrow, Hlast. simpl.
    by replace (length effects - 1 <? length days - 1)%nat with false
      by (symmetry; apply Nat.ltb_ge; lia).
  - rewrite list_lookup_insert_ne, list_lookup_imap by done.
    destruct (effects !! i) as [row'|] eqn:Hrow'; simpl; [|done].
    apply lookup_lt_Some in Hrow'.
    by replace (i <? length days - 1)%nat with true
      by (symmetry; apply Nat.ltb_lt; lia).
Qed.
End EncoderFacts.

(** C2: processing one event record sets [effect[i, type]] to the
    magnitude for every index [i] before the last whose day passes the
    window test (the day lies in [[start, end]], or the event starts at or
    after it, ends at or before the next day and starts before the next
    day); the encoding of days [1,2,3,6] with the event (0, 2, 5, 3) is the
    column [0,3,3,0], and that of days [0,10] with the event (0, 3, 4, 2)
    is [2,0]. *)
Theorem encode_event_window :
  (∀ (F : Type) (HF : Float64 F) (days : list F) (effects : matrix F)
     (ev : event F) (k i : nat),
     has_shape (length days) k effects = true →
     event_idx ev < k →
     S i < length days →
     in_window days ev i = true →
     ∃ effects', encode_event days effects ev = Ok effects'
                 ∧ cell effects' i (event_idx ev) = Some (event_size ev))
  ∧ effects_of (F:=Z) [1; 2; 3; 6]%Z
      (Some ([mk_event 0 2 5 3]%Z, ["A"], {["abx" := 0]})) "A"
    = Ok [[0]; [3]; [3]; [0]]%Z
  ∧ effects_of (F:=Z) [0; 10]%Z
      (Some ([mk_event 0 3 4 2]%Z, ["A"], {["abx" := 0]})) "A"
    = Ok [[2]; [0]]%Z.
Proof.
  split; [|split; vm_compute; reflexivity].
  intros F HF days effects ev k i Hshape Ht Hi Hw.
  exists (encoded days ev effects). split.
  { apply (encode_event_closed _ _ _ k); (done || lia). }
  apply has_shape_spec in Hshape as [Hlen Hrows].
  destruct (lookup_lt_is_Some_2 effects i) as [row Hrow]; [lia|].
  unfold cell, encoded. rewrite list_lookup_imap, Hrow. simpl.
  replace (i <? length days - 1)%nat with true by (symmetry; apply Nat.ltb_lt; lia).
  rewrite Hw. apply list_lookup_insert_eq. rewrite (Hrows _ _ Hrow). lia.
Qed.

Lemma encode_event_window_witness :
  ∃ effects' : matrix Z,
    encode_event [1; 2; 3; 6]%Z [[0]; [0]; [0]; [0]]%Z (mk_event 0 2 5 3)%Z = Ok effects'
    ∧ cell effects' 2 0 = Some 3%Z.
Proof.
  apply (proj1 encode_event_window Z _ [1; 2; 3; 6]%Z [[0]; [0]; [0]; [0]]%Z
           (mk_event 0 2 5 3)%Z 1 2).
  - reflexivity.
  - simpl. lia.
  - simpl. lia.
  - reflexivity.
Defined.

(** C3 as stated fails: an event that does not start on the last day does
    not leave the last-day slot of its type alone.  With days [1,2], the
    slot holding 5 (written by an earlier record of the same type that
    starts on day 2) is reset to 0 by a record that starts on day 1. *)
Lemma encode_event_resets_last_slot :
  ¬ (∀ (days : list Z) (effects effects' : matrix Z) (ev : event Z) (d_last : Z),
       last days = Some d_last →
       encode_event days effects ev = Ok effects' →
       f_eqb (start_day ev) d_last = false →
       cell effects' (length days - 1) (event_idx ev)
       = cell effects (length days - 1) (event_idx ev)).
Proof.
  intros Hclaim.
  assert (cell (A:=Z) [[7]; [0]]%Z 1 0 = cell [[0]; [5]]%Z 1 0) as Heq.
  { apply (Hclaim [1; 2]%Z [[0]; [5]]%Z [[7]; [0]]%Z (mk_event 0 1 1 7)%Z 2%Z);
      reflexivity. }
  discriminate Heq.
Qed.

(** C3, amended: processing an event record always writes the last-day
    slot of the event's type: the magnitude when the start day equals the
    last day, and 0 otherwise, whatever the slot held before; the last-day
    slots of the other types are left as they were. *)
Theorem encode_event_last_slot {F : Type} `{Float64 F}
    (days : list F) (effects : matrix F) (ev : event F) (k : nat) (d_last : F) :
  has_shape (length days) k effects = true →
  event_idx ev < k →
  last days = Some d_last →
  ∃ effects', encode_event days effects ev = Ok effects'
    ∧ cell effects' (length days - 1) (event_idx ev)
      = Some (if f_eqb (start_day ev) d_last then event_size ev else f_zero)
    ∧ ∀ j, j ≠ event_idx ev →
        cell effects' (length days - 1) j = cell effects (length days - 1) j.
Proof.
  intros Hshape Ht Hlast.
  assert (0 < length days) as Hn.
  { destruct days; [done|simpl; lia]. }
  exists (encoded days ev effects). split.
  { by apply (encode_event_closed _ _ _ k). }
  apply has_shape_spec in Hshape as [Hlen Hrows].
  destruct (lookup_lt_is_Some_2 effects (length days - 1)) as [row Hrow]; [lia|].
  unfold cell, encoded. rewrite list_lookup_imap, Hrow, Hlast. simpl.
  rewrite Nat.ltb_irrefl. split.
  - apply list_lookup_insert_eq. rewrite (Hrows _ _ Hrow). lia.
  - intros j Hj. by apply list_lookup_insert_ne.
Qed.

Lemma encode_event_last_slot_witness :
  ∃ effects' : matrix Z,
    encode_event [1; 2]%Z [[0]; [5]]%Z (mk_event 0 1 1 7)%Z = Ok effects'
    ∧ cell effects' 1 0 = Some 0%Z
    ∧ ∀ j, j ≠ 0 → cell effects' 1 j = cell [[0]; [5]]%Z 1 j.
Proof.
  refine (encode_event_last_slot (F:=Z) [1; 2]%Z [[0]; [5]]%Z (mk_event 0 1 1 7)%Z
            1 2%Z _ _ _).
  - reflexivity.
  - simpl. lia.
  - reflexivity.
Defined.

(** ** Pipeline *)

Lemma rmap_lookup_inv {A B} (f : A → result B) (l : list A) (ys : list B)
    (i : nat) (y : B) :
  rmap f l = Ok ys → ys !! i = Some y → ∃ x, l !! i = Some x ∧ f x = Ok y.
Proof.
  intros Hmap Hy.
  destruct (lookup_lt_is_Some_2 l i) as [x Hx].
  { rewrite <-(rmap_length _ _ _ Hmap). by eapply lookup_lt_Some. }
  destruct (rmap_lookup _ _ _ _ _ Hmap Hx) as (y' & Hy' & Hfx).
  exists x. split; [done|]. congruence.
Qed.

Lemma np_array_Ok {A} (rows rows' : list (list A)) :
  np_array rows = Ok rows' →
  rows' = rows
  ∧ ∀ r1 r2, r1 ∈ rows → r2 ∈ rows → length r1 = length r2.
Proof.
  unfold np_array. destruct rows as [|row rest].
  { intros [= <-]. split; [done|]. intros r1 r2 Hr1. by apply not_elem_of_nil in Hr1. }
  destruct (forallb _ _) eqn:Hall; [|done]. intros [= <-]. split; [done|].
  rewrite forallb_forall in Hall.
  intros r1 r2 Hr1%list_elem_of_In%Hall%Nat.eqb_eq Hr2%list_elem_of_In%Hall%Nat.eqb_eq.
  congruence.
Qed.

Lemma np_array_total {A} (rows : list (list A)) (n : nat) :
  (∀ r, r ∈ rows → length r = n) → np_array rows = Ok rows.
Proof.
  intros Hlen. unfold np_array. destruct rows as [|row rest]; [done|].
  replace (forallb _ _) with true; [done|].
  symmetry. apply forallb_forall. intros r Hr%list_elem_of_In.
  apply Nat.eqb_eq. rewrite (Hlen r Hr). symmetry. apply Hlen. by left.
Qed.

Section PipelineFacts.
Context {F : Type} `{Float64 F} `{!Argsort string} `{!Argsort F}.

Lemma format_subject_Ok (otu_table : matrix F) (otu_seq_id : list string)
    (evs : event_args) (s_id : string) (obs eff : matrix F) (days : list F) :
  format_subject otu_table otu_seq_id evs s_id = Ok (obs, eff, days) →
  ∃ seq0,
    cols_at otu_table (argwhere (λ x, bool_decide (x = s_id)) otu_seq_id) !! 0 = Some seq0
    ∧ cols_at (cols_at otu_table (argwhere (λ x, bool_decide (x = s_id)) otu_seq_id))
        (argsort seq0) !! 0 = Some days
    ∧ obs = observation_at
              (cols_at (cols_at otu_table
                          (argwhere (λ x, bool_decide (x = s_id)) otu_seq_id))
                 (argsort seq0)) days <$> days
    ∧ (∀ r1 r2, r1 ∈ obs → r2 ∈ obs → length r1 = length r2)
    ∧ effects_of days evs s_id = Ok eff.
Proof.
  unfold format_subject, getitem.
  intros (seq0 & Hseq0 & (days' & Hdays & Hk)%bind_Ok_inv)%bind_Ok_inv.
  apply bind_Ok_inv in Hk as (eff' & Heff & (obs' & Hobs & [= <- <- <-])%bind_Ok_inv).
  apply np_array_Ok in Hobs as [-> Hsame].
  exists seq0.
  destruct (cols_at otu_table _ !! 0) as [r|]; simplify_eq/=.
  destruct (cols_at (cols_at otu_table _) _ !! 0) as [r'|]; simplify_eq/=.
  done.
Qed.

Lemma format_observations_Ok (otu_table : matrix F) (otu_seq_id : list string)
    (evs : event_args) IDs (Y U : list (matrix F)) (T : list (list F)) :
  format_observations otu_table otu_seq_id evs = Ok (IDs, Y, U, T) →
  IDs = np_unique otu_seq_id
  ∧ ∃ YUT,
      rmap (format_subject (cols_at otu_table (argsort otu_seq_id))
              (take_at otu_seq_id (argsort otu_seq_id)) evs)
           (np_unique (take_at otu_seq_id (argsort otu_seq_id))) = Ok YUT
      ∧ Y = YUT.*1.*1 ∧ U = YUT.*1.*2 ∧ T = YUT.*2.
Proof.
  unfold format_observations.
  intros (YUT & Hmap & [= <- <- <- <-])%bind_Ok_inv.
  split; [done|]. by exists YUT.
Qed.

Lemma load_observations_Ok (otu_lines : list string) (event_lines : option (list string))
    IDs (Y U : list (matrix F)) (T : list (list F)) names :
  load_observations otu_lines event_lines = Ok (IDs, Y, U, T, names) →
  ∃ otu_seq_id otu_table evs,
    parse_otu_table otu_lines ","%char true = Ok (otu_seq_id, otu_table)
    ∧ format_observations otu_table otu_seq_id evs = Ok (IDs, Y, U, T)
    ∧ match event_lines with
      | None => evs = None ∧ names = None
      | Some lines =>
          ∃ events event_to_int event_seq_id event_names,
            parse_event_table lines ","%char true
            = Ok (events, event_to_int, event_seq_id, event_names)
            ∧ evs = Some (events, event_seq_id, event_to_int)
            ∧ names = Some event_names
      end.
Proof.
  unfold load_observations.
  intros ([otu_seq_id otu_table] & Hotu & ([evs names'] & Hev & Hk)%bind_Ok_inv)%bind_Ok_inv.
  apply bind_Ok_inv in Hk as ([[[IDs' Y'] U'] T'] & Hfmt & [= <- <- <- <- <-]).
  exists otu_seq_id, otu_table, evs. split_and!; [done..|].
  destruct event_lines as [lines|].
  - apply bind_Ok_inv in Hev as ([[[events e2i] ids] enames] & Hparse & [= <- <-]).
    by exists events, e2i, ids, enames.
  - by injection Hev as <- <-.
Qed.
End PipelineFacts.

(** C7: when [load_observations] is called without an event table, every
    returned effect matrix has one row per day of its subject, a single
    column, and only zeros in it; no event names are returned. *)
Theorem load_observations_no_events {F : Type} `{Float64 F}
    `{!Argsort string} `{!Argsort F}
    (otu_lines : list string) (IDs : list string) (Y U : list (matrix F))
    (T : list (list F)) (names : option (list string)) :
  load_observations otu_lines None = Ok (IDs, Y, U, T, names) →
  names = None
  ∧ length U = length T
  ∧ ∀ i u, U !! i = Some u →
      ∃ days, T !! i = Some days ∧ u = replicate (length days) [f_zero].
Proof.
  intros (otu_seq_id & otu_table & evs & _ & Hfmt & -> & ->)%load_observations_Ok.
  apply format_observations_Ok in Hfmt as (_ & YUT & Hmap & _ & -> & ->).
  split_and!; [done|by rewrite !length_fmap|].
  intros i u Hu. rewrite !list_lookup_fmap in Hu.
  destruct (YUT !! i) as [[[obs eff] days]|] eqn:Hi; simplify_eq/=.
  destruct (rmap_lookup_inv _ _ _ _ _ Hmap Hi) as (s_id & _ & Hsub).
  apply format_subject_Ok in Hsub as (_ & _ & _ & _ & _ & [= <-]).
  exists days. by rewrite list_lookup_fmap, Hi.
Qed.

Lemma load_observations_no_events_witness :
  (None : option (list string)) = None
  ∧ length [[[0]]; [[0]; [0]]]%Z = length [[2]; [0; 1]]%Z
  ∧ ∀ i u, [[[0]]; [[0]; [0]]]%Z !! i = Some u →
      ∃ days, [[2]; [0; 1]]%Z !! i = Some days ∧ u = replicate (length days) [0%Z].
Proof.
  refine (load_observations_no_events (F:=Z)
           (readlines ("id,B,A,B" +:+ nl +:+ "day,1,2,0" +:+ nl +:+ "otu1,5,3,4" +:+ nl +:+
                       "otu2,1,2,7" +:+ nl))
           ["A"; "B"] [[[3; 2]]; [[4; 7]; [5; 1]]]%Z [[[0]]; [[0]; [0]]]%Z
           [[2]; [0; 1]]%Z None _).
  vm_compute. reflexivity.
Defined.

(** ** TableScatter *)

Lemma rfold_invariant {A S} (P : S → Prop) (body : S → A → result S)
    (s s' : S) (l : list A) :
  P s →
  (∀ s x s', x ∈ l → P s → body s x = Ok s' → P s') →
  rfold body s l = Ok s' → P s'.
Proof.
  revert s. induction l as [|x l IH]; intros s Hs Hbody; simpl.
  - by intros [= <-].
  - intros (s1 & Hs1 & Hrest)%bind_Ok_inv.
    apply (IH s1); [|by intros ???? ; apply Hbody; right|done].
    eapply Hbody; [by left|done..].
Qed.

Section TableScatterFacts.
Context {F : Type} `{Float64 F}.

(** Every stored prediction is a row of some [y_pred]. *)
Lemma predictions_rows (IDs : list string) (Y_pred : list (matrix F))
    (T : list (list F)) (predictions : gmap (string * string) (list F)) (n : nat) :
  forallb (forallb (λ row : list F, (length row =? n)%nat)) Y_pred = true →
  rfold add_predictions ∅ (zip (zip IDs Y_pred) T) = Ok predictions →
  ∀ key v, predictions !! key = Some v → length v = n.
Proof.
  intros HY Hfold.
  eapply (rfold_invariant (λ preds : gmap (string * string) (list F),
                             ∀ key v, preds !! key = Some v → length v = n));
    [| |exact Hfold].
  { intros key v Hv. by rewrite lookup_empty in Hv. }
  intros preds [[p_id y_pred] days] preds' Hin Hpreds.
  apply elem_of_zip_l, elem_of_zip_r in Hin.
  rewrite forallb_forall in HY. apply list_elem_of_In, HY in Hin.
  rewrite forallb_forall in Hin.
  unfold add_predictions.
  apply (rfold_invariant (λ preds : gmap (string * string) (list F),
                            ∀ key v, preds !! key = Some v → length v = n)); [done|].
  intros preds1 [t day] preds2 _ Hpreds1.
  unfold getitem. destruct (y_pred !! t) as [row|] eqn:Hrow; simpl; [|done].
  intros [= <-] key v.
  destruct (decide ((p_id, str_of_float day) = key)) as [<-|Hne].
  - rewrite lookup_insert_eq. intros [= <-].
    apply Nat.eqb_eq, Hin, list_elem_of_In. by eapply list_elem_of_lookup_2.
  - rewrite lookup_insert_ne by done. apply Hpreds1.
Qed.

Lemma scatter_col_key (predictions : gmap (string * string) (list F))
    (out_table : matrix F) (j : nat) (col : list string) (key : string * string) :
  column_key F col = Some key →
  scatter_col predictions out_table (j, col)
  = (v ← of_option KeyError (predictions !! key); assign_col out_table 2 (j + 1) v).
Proof.
  unfold column_key, scatter_col, getitem.
  destruct (col !! 0) as [p_id|]; simpl; [|done].
  destruct (col !! 1) as [c1|]; simpl; [|done].
  destruct (float_of_string c1) as [d|]; simpl; [|done].
  by intros [= <-].
Qed.

Lemma assign_col_fit (out_table : matrix F) (r0 j : nat) (v : list F) :
  length v = length out_table - r0 →
  ∃ out_table', assign_col out_table r0 j v = Ok out_table'
                ∧ length out_table' = length out_table.
Proof.
  intros Hv. unfold assign_col. apply Nat.eqb_eq in Hv as ->.
  eexists. split; [done|]. by rewrite length_imap.
Qed.

(** The scatter loop on well-formed columns and well-shaped predictions:
    it stops with KeyError at the first column without a prediction. *)
Lemma scatter_missing (predictions : gmap (string * string) (list F))
    (out_table : matrix F) (cols : list (nat * list string)) :
  (∀ key v, predictions !! key = Some v → length v = length out_table - 2) →
  forallb (λ col, numeric_at F col 1) cols.*2 = true →
  existsb (missing_prediction predictions) cols.*2 = true →
  rfold (scatter_col predictions) out_table cols = Raise KeyError.
Proof.
  intros Hshape. revert out_table Hshape.
  induction cols as [|[j col] cols IH]; intros out_table Hshape Hnum Hmiss;
    [done|].
  rewrite rfold_cons. simpl in Hnum, Hmiss.
  apply andb_true_iff in Hnum as [Hnum Hcols].
  assert (∃ key, column_key F col = Some key) as [key Hkey].
  { apply numeric_at_Some in Hnum as (c1 & d & Hc1 & Hd).
    unfold column_key. rewrite Hc1.
    destruct (col !! 0) as [p_id|] eqn:Hc0; simpl.
    - rewrite Hd. simpl. eauto.
    - apply lookup_ge_None in Hc0. apply lookup_lt_Some in Hc1. lia. }
  rewrite (scatter_col_key _ _ _ _ _ Hkey).
  unfold missing_prediction at 1 in Hmiss. rewrite Hkey in Hmiss.
  destruct (predictions !! key) as [v|] eqn:Hv; simpl; [|done].
  rewrite bool_decide_eq_false_2 in Hmiss by done. simpl in Hmiss.
  destruct (assign_col_fit out_table 2 (j + 1) v) as (out' & -> & Hlen).
  { by eapply Hshape. }
  rewrite bind_Ok. apply IH; [|done..]. by rewrite Hlen.
Qed.
End TableScatterFacts.

(** C6: [write_table] raises KeyError whenever a column of the reference
    table asks for a (subject, day) pair that the supplied predictions do
    not contain; the reference table is a table of day columns (every day
    cell is numeric) and every prediction row has one value per count row
    of the table. *)
Theorem write_table_missing_prediction {F : Type} `{Float64 F}
    (IDs : list string) (Y_pred : list (matrix F)) (T : list (list F))
    (in_table : list (list string))
    (predictions : gmap (string * string) (list F)) :
  rfold add_predictions ∅ (zip (zip IDs Y_pred) T) = Ok predictions →
  forallb (forallb (λ row : list F, (length row =? length in_table - 2)%nat)) Y_pred
  = true →
  forallb (λ col, numeric_at F col 1) (data_columns in_table) = true →
  existsb (missing_prediction predictions) (data_columns in_table) = true →
  write_table IDs Y_pred T in_table = Raise KeyError.
Proof.
  intros Hpreds HY Hnum Hmiss. unfold write_table. rewrite Hpreds, bind_Ok.
  assert ((enumerate (data_columns in_table)).*2 = data_columns in_table) as Hsnd.
  { unfold enumerate. apply snd_zip. by rewrite length_seq. }
  apply scatter_missing; rewrite ?Hsnd; [|done..].
  rewrite length_replicate. by apply (predictions_rows IDs Y_pred T).
Qed.

Lemma write_table_missing_prediction_witness :
  write_table (F:=Z) ["A"; "B"] [[[5]; [6]]; [[7]]]%Z [[1; 2]; [1]]%Z
    [["id"; "A"; "A"; "B"; "B"]; ["day"; "1"; "2"; "1"; "2"]; ["otu1"; "0"; "0"; "0"; "0"]]
  = Raise KeyError.
Proof.
  apply (write_table_missing_prediction (F:=Z) ["A"; "B"] [[[5]; [6]]; [[7]]]%Z
           [[1; 2]; [1]]%Z
           [["id"; "A"; "A"; "B"; "B"]; ["day"; "1"; "2"; "1"; "2"];
            ["otu1"; "0"; "0"; "0"; "0"]]
           {[("A", "1.0") := [5%Z]; ("A", "2.0") := [6%Z]; ("B", "1.0") := [7%Z]]}).
  - vm_compute. reflexivity.
  - vm_compute. reflexivity.
  - vm_compute. reflexivity.
  - vm_compute. reflexivity.
Defined.

(** ** Index arrays *)

Lemma argwhere_snoc {A} (p : A → bool) (l : list A) (x : A) :
  argwhere p (l ++ [x])%list
  = (argwhere p l ++ (if p x then [length l] else []))%list.
Proof.
  unfold argwhere. rewrite enumerate_snoc, bind_app. f_equal.
  simpl. by rewrite app_nil_r.
Qed.

Lemma elem_of_argwhere {A} (p : A → bool) (l : list A) (i : nat) :
  i ∈ argwhere p l ↔ ∃ x, l !! i = Some x ∧ p x = true.
Proof.
  unfold argwhere. rewrite list_elem_of_bind. split.
  - intros ([j x] & Hi & Hin). apply elem_of_enumerate in Hin.
    destruct (p x) eqn:Hp; [|by apply not_elem_of_nil in Hi].
    apply list_elem_of_singleton in Hi as ->. eauto.
  - intros (x & Hx & Hp). exists (i, x). rewrite Hp.
    split; [by apply list_elem_of_singleton|by apply elem_of_enumerate].
Qed.

Lemma argwhere_lt {A} (p : A → bool) (l : list A) (i : nat) :
  i ∈ argwhere p l → i < length l.
Proof. intros (x & Hx & _)%elem_of_argwhere. by eapply lookup_lt_Some. Qed.

Lemma argwhere_sorted {A} (p : A → bool) (l : list A) :
  StronglySorted lt (argwhere p l).
Proof.
  induction l as [|x l IH] using rev_ind; [constructor|].
  rewrite argwhere_snoc. apply StronglySorted_app_2; [|done|].
  - intros i j Hi%argwhere_lt Hj.
    destruct (p x); [|by apply not_elem_of_nil in Hj].
    by apply list_elem_of_singleton in Hj as ->.
  - destruct (p x); repeat constructor.
Qed.

Lemma argwhere_NoDup {A} (p : A → bool) (l : list A) : NoDup (argwhere p l).
Proof.
  induction l as [|x l IH] using rev_ind; [constructor|].
  rewrite argwhere_snoc. apply NoDup_app. split_and!; [done| |].
  - intros i Hi%argwhere_lt Hj.
    destruct (p x); [|by apply not_elem_of_nil in Hj].
    apply list_elem_of_singleton in Hj. lia.
  - destruct (p x); [apply NoDup_singleton|constructor].
Qed.

(** The first position found by [argwhere] is the least one that passes
    the test. *)
Lemma argwhere_head {A} (p : A → bool) (l : list A) (k : nat) (x : A) :
  l !! k = Some x → p x = true →
  ∃ j rest, argwhere p l = j :: rest
    ∧ (j ≤ k)%nat
    ∧ (∃ y, l !! j = Some y ∧ p y = true)
    ∧ ∀ j' y, j' < j → l !! j' = Some y → p y = false.
Proof.
  intros Hk Hp.
  assert (k ∈ argwhere p l) as Hin by (apply elem_of_argwhere; eauto).
  pose proof (argwhere_sorted p l) as Hsorted.
  destruct (argwhere p l) as [|j rest] eqn:Hidx; [by apply not_elem_of_nil in Hin|].
  apply StronglySorted_inv in Hsorted as [_ Hhd]. rewrite Forall_forall in Hhd.
  assert (∀ i, i ∈ j :: rest → (j ≤ i)%nat) as Hmin.
  { intros i [->|Hi%Hhd]%elem_of_cons; lia. }
  exists j, rest. split_and!; [done|by apply Hmin| |].
  - apply elem_of_argwhere. rewrite Hidx. by left.
  - intros j' y Hlt Hj'. destruct (p y) eqn:Hpy; [|done].
    assert (j' ∈ argwhere p l) as Hj'in by (apply elem_of_argwhere; eauto).
    rewrite Hidx in Hj'in. apply Hmin in Hj'in. lia.
Qed.

Lemma take_at_length {A} `{Inhabited A} (l : list A) (idx : list nat) :
  length (take_at l idx) = length idx.
Proof. apply length_fmap. Qed.

Lemma take_at_lookup {A} `{Inhabited A} (l : list A) (idx : list nat) (k : nat) :
  k < length idx → take_at l idx !!! k = l !!! (idx !!! k).
Proof.
  intros Hk. unfold take_at.
  destruct (lookup_lt_is_Some_2 idx k Hk) as [i Hi].
  apply list_lookup_total_correct. rewrite list_lookup_fmap, Hi. simpl.
  by rewrite (list_lookup_total_correct _ _ _ Hi).
Qed.

Lemma take_at_seq {A} `{Inhabited A} (l : list A) :
  take_at l (seq 0 (length l)) = l.
Proof.
  apply list_eq. intros i. unfold take_at. rewrite list_lookup_fmap.
  destruct (l !! i) as [x|] eqn:Hx.
  - rewrite lookup_seq_lt by (by eapply lookup_lt_Some). simpl.
    by rewrite (list_lookup_total_correct _ _ _ Hx).
  - rewrite lookup_seq_ge; [done|]. by apply lookup_ge_None.
Qed.

Lemma take_at_Permutation {A} `{Inhabited A} (l : list A) (idx : list nat) :
  idx ≡ₚ seq 0 (length l) → take_at l idx ≡ₚ l.
Proof.
  intros Hperm. rewrite <-(take_at_seq l) at 2. unfold take_at. by rewrite Hperm.
Qed.

Lemma take_at_take_at {A} `{Inhabited A} (l : list A) (idx1 idx2 : list nat) :
  (∀ i, i ∈ idx2 → i < length idx1) →
  take_at (take_at l idx1) idx2 = take_at l (take_at idx1 idx2).
Proof.
  intros Hin. unfold take_at. rewrite <-list_fmap_compose.
  apply list_fmap_ext. intros _ i Hi%list_elem_of_lookup_2. simpl.
  by apply (take_at_lookup l idx1 i), Hin.
Qed.

Lemma cols_at_cols_at {A} `{Inhabited A} (m : list (list A)) (idx1 idx2 : list nat) :
  (∀ i, i ∈ idx2 → i < length idx1) →
  cols_at (cols_at m idx1) idx2 = cols_at m (take_at idx1 idx2).
Proof.
  intros Hin. unfold cols_at. rewrite <-list_fmap_compose.
  apply list_fmap_ext. intros _ row _. simpl. by apply take_at_take_at.
Qed.

Lemma cols_at_lookup {A} `{Inhabited A} (m : list (list A)) (idx : list nat) (i : nat) :
  cols_at m idx !! i = (λ row, take_at row idx) <$> m !! i.
Proof. unfold cols_at. apply list_lookup_fmap. Qed.

Lemma column_at_cols_at {A} `{Inhabited A} (m : list (list A)) (idx : list nat) (k : nat) :
  k < length idx →
  column_at (cols_at m idx) k = column_at m (idx !!! k).
Proof.
  intros Hk. unfold column_at, cols_at. rewrite <-list_fmap_compose.
  apply list_fmap_ext. intros _ row _. simpl. by apply take_at_lookup.
Qed.

(** ** Sorting *)

Section ArgsortFacts.
Context {A : Type} `{Inhabited A} {le : A → A → bool} `{!Argsort A} `{!ArgsortLaws le _}.

Lemma argsort_length (l : list A) : length (argsort l) = length l.
Proof. by rewrite (argsort_Permutation l), length_seq. Qed.

Lemma argsort_lt (l : list A) (i : nat) : i ∈ argsort l → i < length l.
Proof. rewrite (argsort_Permutation l), elem_of_seq. lia. Qed.

Lemma argsort_NoDup (l : list A) : NoDup (argsort l).
Proof. rewrite (argsort_Permutation l). apply NoDup_seq. Qed.
End ArgsortFacts.

(** The sorts of the examples are sorts in the sense of [ArgsortLaws],
    whatever they do with equal values. *)
Lemma tie_argsort_laws {A} `{Inhabited A} (tie : nat → nat → bool)
    (leb le : A → A → bool) :
  (∀ i j, tie i j = true ∨ tie j i = true) →
  (∀ x y, leb x y = true ∨ leb y x = true) →
  (∀ x y, leb x y = true → le x y = true) →
  ArgsortLaws le (ZFloat.tie_argsort tie leb).
Proof.
  intros Htie Htotal Hle. split; intros l.
  - apply merge_sort_Permutation.
  - unfold take_at.
    apply (Sorted_fmap _ (λ i j : nat, Is_true (ZFloat.tie_argsort_le tie leb l i j))).
    + intros i j [Hij _]%Is_true_true%andb_true_iff. by apply Hle.
    + apply Sorted_merge_sort. intros i j. unfold ZFloat.tie_argsort_le.
      destruct (leb (l !!! i) (l !!! j)) eqn:Hij,
               (leb (l !!! j) (l !!! i)) eqn:Hji; simpl.
      all: try (destruct (Htotal (l !!! i) (l !!! j)); congruence).
      all: destruct (Htie i j) as [Ht|Ht]; rewrite ?Ht; simpl; auto.
Qed.

Lemma np_le_Z (x y : Z) : Z.leb x y = true → np_le x y = true.
Proof.
  intros Hxy%Z.leb_le. unfold np_le. simpl. rewrite Z.eqb_refl. simpl.
  rewrite andb_true_r. apply negb_true_iff, Z.ltb_ge. lia.
Qed.

Lemma Z_leb_total (x y : Z) : Z.leb x y = true ∨ Z.leb y x = true.
Proof. rewrite !Z.leb_le. lia. Qed.

#[global] Instance numpy_sort_Z : NumpySort Z.
Proof.
  split.
  - apply (tie_argsort_laws Nat.leb String.leb String.leb); [|apply String.leb_total|done].
    intros i j. rewrite !Nat.leb_le. lia.
  - apply (tie_argsort_laws (H:=float_inhabited) Nat.leb Z.leb np_le);
      [|apply Z_leb_total|apply np_le_Z].
    intros i j. rewrite !Nat.leb_le. lia.
Qed.

Lemma argsort_Z_desc_laws :
  ArgsortLaws (H:=float_inhabited) np_le ZFloat.argsort_Z_desc.
Proof.
  unfold ZFloat.argsort_Z_desc.
  apply (tie_argsort_laws (H:=float_inhabited) _ Z.leb np_le);
    [|apply Z_leb_total|apply np_le_Z].
  intros i j. rewrite !Nat.leb_le. lia.
Qed.

Lemma np_unique_Permutation (l : list string) : np_unique l ≡ₚ remove_dups l.
Proof. apply merge_sort_Permutation. Qed.

Lemma np_unique_elem_of (l : list string) (x : string) : x ∈ np_unique l ↔ x ∈ l.
Proof. by rewrite np_unique_Permutation, elem_of_remove_dups. Qed.

Lemma np_unique_NoDup (l : list string) : NoDup (np_unique l).
Proof. rewrite np_unique_Permutation. apply NoDup_remove_dups. Qed.

Lemma np_unique_sorted (l : list string) : StronglySorted String.le (np_unique l).
Proof. apply StronglySorted_merge_sort; apply _. Qed.

(** [np.unique] does not depend on the order of its argument. *)
Lemma np_unique_perm (l1 l2 : list string) : l1 ≡ₚ l2 → np_unique l1 = np_unique l2.
Proof.
  intros Hperm. apply (StronglySorted_unique String.le); [apply np_unique_sorted..|].
  rewrite !np_unique_Permutation.
  apply NoDup_Permutation; [apply NoDup_remove_dups..|].
  intros x. by rewrite !elem_of_remove_dups, Hperm.
Qed.

(** ** SeriesAligner *)

Section AlignerFacts.
Context {F : Type} `{Float64 F}.

(** With at least one column on the requested day, the observation is the
    count column of the first of them. *)
Lemma observation_at_head (seq : matrix F) (days : list F) (day : F)
    (j : nat) (rest : list nat) :
  argwhere (λ d, f_eqb d day) days = j :: rest →
  observation_at seq days day = column_at (tail seq) j.
Proof.
  intros Hidx. unfold observation_at, column_at. rewrite Hidx.
  destruct rest as [|j' rest]; simpl.
  - unfold cols_at. generalize (tail seq). intros m.
    induction m as [|row m IH]; [done|]. csimpl. by f_equal.
  - unfold cols_at. rewrite <-list_fmap_compose. by apply list_fmap_ext.
Qed.

Lemma first_equal_Some (t : list F) (d : F) (j : nat) :
  first_equal t d = Some j →
  (∃ y, t !! j = Some y ∧ f_eqb y d = true)
  ∧ ∀ j' y, j' < j → t !! j' = Some y → f_eqb y d = false.
Proof.
  revert j. induction t as [|x t IH]; intros j; simpl; [done|].
  destruct (f_eqb x d) eqn:Hx.
  - intros [= <-]. split; [by exists x|]. intros j' y Hj'. lia.
  - destruct (first_equal t d) as [j0|] eqn:Hj0; [|done]. simpl. intros [= <-].
    destruct (IH j0 eq_refl) as [Hy Hleast]. split; [done|].
    intros [|j'] y Hlt Hj'; simpl in Hj'; [by simplify_eq|].
    apply (Hleast j'); [lia|done].
Qed.

Lemma first_equal_None (t : list F) (d : F) :
  first_equal t d = None → ∀ y, y ∈ t → f_eqb y d = false.
Proof.
  induction t as [|x t IH]; simpl.
  - intros _ y Hy. by apply not_elem_of_nil in Hy.
  - destruct (f_eqb x d) eqn:Hx; [done|].
    destruct (first_equal t d); [done|].
    intros _ y [->|Hy]%elem_of_cons; [done|by apply IH].
Qed.

Lemma first_equal_intro (t : list F) (d : F) (k : nat) (x : F) :
  t !! k = Some x → f_eqb x d = true →
  (∀ j y, j < k → t !! j = Some y → f_eqb y d = false) →
  first_equal t d = Some k.
Proof.
  revert k. induction t as [|x0 t IH]; intros k; [done|].
  destruct k as [|k]; simpl.
  - intros [= ->] -> _. done.
  - intros Hk Hx Hleast. rewrite (Hleast 0 x0) by (done || lia).
    rewrite (IH k Hk Hx); [done|].
    intros j y Hj Hy. apply (Hleast (S j)); [lia|done].
Qed.

(** The observation of a day is the count column of the first column on
    that day, and empty when no column is on that day. *)
Lemma observation_at_first_equal (seq : matrix F) (days : list F) (day : F) :
  observation_at seq days day
  = match first_equal days day with
    | Some j => column_at (tail seq) j
    | None => []
    end.
Proof.
  destruct (argwhere (λ d, f_eqb d day) days) as [|j rest] eqn:Hidx.
  - assert (first_equal days day = None) as ->.
    { destruct (first_equal days day) as [j|] eqn:Hj; [|done].
      apply first_equal_Some in Hj as [(y & Hy & Hyd) _].
      assert (j ∈ argwhere (λ d, f_eqb d day) days) as Hin
        by (apply elem_of_argwhere; eauto).
      rewrite Hidx in Hin. by apply not_elem_of_nil in Hin. }
    unfold observation_at. rewrite Hidx. simpl.
    unfold cols_at. induction (tail seq) as [|row m IH]; [done|]. by csimpl.
  - rewrite (observation_at_head _ _ _ _ _ Hidx).
    assert (j ∈ argwhere (λ d, f_eqb d day) days) as (x & Hx & Hp)%elem_of_argwhere
      by (rewrite Hidx; by left).
    destruct (argwhere_head (λ d, f_eqb d day) days j x Hx Hp)
      as (j0 & rest0 & Hhead & _ & _ & Hleast).
    rewrite Hidx in Hhead. injection Hhead as <- <-.
    by rewrite (first_equal_intro days day j x Hx Hp Hleast).
Qed.

Lemma observation_at_length (seq : matrix F) (days : list F) (day y : F) :
  y ∈ days → f_eqb y day = true →
  length (observation_at seq days day) = length seq - 1.
Proof.
  intros Hy Hyd. rewrite observation_at_first_equal.
  destruct (first_equal days day) as [j|] eqn:Hj.
  - unfold column_at. rewrite length_fmap. destruct seq; simpl; lia.
  - apply first_equal_None with (y:=y) in Hj; [congruence|done].
Qed.

Lemma setitem2_length (m m' : matrix F) (i j : nat) (v : F) :
  setitem2 m i j v = Ok m' → length m' = length m.
Proof.
  unfold setitem2. destruct (m !! i) as [row|]; [|done].
  destruct (j <? length row)%nat; [|done].
  intros [= <-]. apply length_insert.
Qed.

Lemma encode_event_length (days : list F) (effects effects' : matrix F) (ev : event F) :
  encode_event days effects ev = Ok effects' → length effects' = length effects.
Proof.
  unfold encode_event.
  intros (e1 & Hloop & (d_last & _ & Hset)%bind_Ok_inv)%bind_Ok_inv.
  apply setitem2_length in Hset. rewrite Hset.
  revert Hloop. apply (rfold_invariant (λ e : matrix F, length e = length effects)); [done|].
  intros e [i d] e' _ He. unfold encode_day.
  destruct (_ && _); [intros ->%setitem2_length; done|].
  destruct (_ && _); [intros ->%setitem2_length; done|].
  by intros [= <-].
Qed.

Lemma effects_of_length (days : list F) (evs : event_args) (s_id : string)
    (effects : matrix F) :
  effects_of days evs s_id = Ok effects → length effects = length days.
Proof.
  unfold effects_of. destruct evs as [[[event_table event_seq_id] event_to_int]|].
  - apply (rfold_invariant (λ e : matrix F, length e = length days)).
    + apply length_replicate.
    + intros e ev e' _ He ->%encode_event_length. done.
  - intros [= <-]. apply length_replicate.
Qed.
End AlignerFacts.

(** The columns selected for a subject after the table was reordered by
    sequence id are the subject's columns of the original table. *)
Section SubjectColumns.
Context {le : string → string → bool} `{!Argsort string} `{!ArgsortLaws le _}.

Lemma subject_columns_perm (otu_seq_id : list string) (s : string) :
  take_at (argsort otu_seq_id)
    (argwhere (λ x, bool_decide (x = s))
       (take_at otu_seq_id (argsort otu_seq_id)))
  ≡ₚ subject_columns otu_seq_id s.
Proof.
  set (perm := argsort otu_seq_id).
  assert (∀ k c, perm !! k = Some c →
            take_at otu_seq_id perm !! k = Some (otu_seq_id !!! c)) as Hsorted_id.
  { intros k c Hk. unfold take_at. by rewrite list_lookup_fmap, Hk. }
  apply NoDup_Permutation.
  - unfold take_at. apply NoDup_fmap_2_strong; [|apply argwhere_NoDup].
    intros x y Hx%argwhere_lt Hy%argwhere_lt Heq.
    rewrite length_fmap in Hx, Hy.
    apply (NoDup_lookup perm x y (perm !!! x)); [apply argsort_NoDup|..].
    + by apply list_lookup_lookup_total_lt.
    + rewrite Heq. by apply list_lookup_lookup_total_lt.
  - apply argwhere_NoDup.
  - intros j. unfold subject_columns. rewrite elem_of_argwhere.
    unfold take_at at 1. rewrite list_elem_of_fmap. split.
    + intros (k & -> & (x & Hx & Hp)%elem_of_argwhere).
      destruct (perm !! k) as [c|] eqn:Hk.
      2:{ apply lookup_ge_None in Hk. apply lookup_lt_Some in Hx.
          rewrite take_at_length in Hx. lia. }
      rewrite (Hsorted_id _ _ Hk) in Hx. injection Hx as <-.
      rewrite (list_lookup_total_correct _ _ _ Hk).
      exists (otu_seq_id !!! c). split; [|done].
      apply list_lookup_lookup_total_lt, argsort_lt.
      by eapply list_elem_of_lookup_2.
    + intros (x & Hx & Hp).
      assert (j ∈ perm) as [k Hk]%list_elem_of_lookup.
      { unfold perm. rewrite (argsort_Permutation otu_seq_id), elem_of_seq.
        apply lookup_lt_Some in Hx. lia. }
      exists k. split; [by rewrite (list_lookup_total_correct _ _ _ Hk)|].
      apply elem_of_argwhere. exists x. split; [|done].
      by rewrite (Hsorted_id _ _ Hk), (list_lookup_total_correct _ _ _ Hx).
Qed.
End SubjectColumns.

Lemma subject_columns_nonempty (otu_seq_id : list string) (s : string) :
  s ∈ otu_seq_id → 0 < length (subject_columns otu_seq_id s).
Proof.
  intros [i Hi]%list_elem_of_lookup.
  assert (i ∈ subject_columns otu_seq_id s) as Hin.
  { apply elem_of_argwhere. exists s. by rewrite bool_decide_eq_true. }
  destruct (subject_columns otu_seq_id s); [by apply not_elem_of_nil in Hin|simpl; lia].
Qed.

Section AlignerProperties.
Context {F : Type} `{NumpySort F}.

(** One subject of [format_observations]. *)
Lemma format_subject_aligned (otu_table : matrix F) (otu_seq_id : list string)
    (evs : event_args) (s : string) (obs eff : matrix F) (days : list F) :
  format_subject (cols_at otu_table (argsort otu_seq_id))
    (take_at otu_seq_id (argsort otu_seq_id)) evs s = Ok (obs, eff, days) →
  ∃ row0,
    column_order otu_seq_id row0 s ≡ₚ subject_columns otu_seq_id s
    ∧ Sorted (λ x y, np_le x y = true) days
    ∧ aligned otu_table row0 (column_order otu_seq_id row0 s) obs days
    ∧ length eff = length days
    ∧ effects_of days evs s = Ok eff.
Proof.
  intros (seq0 & Hseq0 & Hdays & -> & _ & Heff)%format_subject_Ok.
  set (perm := argsort otu_seq_id) in *.
  set (idx_s := argwhere _ (take_at otu_seq_id perm)) in *.
  assert (∀ i, i ∈ idx_s → i < length perm) as Hidx.
  { intros i Hi%argwhere_lt. by rewrite take_at_length in Hi. }
  rewrite (cols_at_cols_at _ _ _ Hidx) in Hseq0, Hdays |- *.
  pose proof (subject_columns_perm otu_seq_id s) as Hc1.
  fold perm idx_s in Hc1.
  rewrite cols_at_lookup in Hseq0.
  destruct (otu_table !! 0) as [row0|] eqn:Hrow0; simplify_eq/=.
  exists row0. unfold column_order. fold perm idx_s.
  set (c1 := take_at perm idx_s) in *.
  set (sort_by_day := argsort (take_at row0 c1)) in *.
  assert (∀ i, i ∈ sort_by_day → i < length c1) as Hsort.
  { intros i Hi%argsort_lt. by rewrite take_at_length in Hi. }
  rewrite (cols_at_cols_at _ _ _ Hsort) in Hdays |- *.
  rewrite cols_at_lookup, Hrow0 in Hdays. simplify_eq/=.
  set (cs := take_at c1 sort_by_day).
  assert (length cs = length c1) as Hcs_len.
  { unfold cs, sort_by_day. by rewrite take_at_length, argsort_length, take_at_length. }
  split_and!; [| |
    |by apply effects_of_length in Heff|done].
  - rewrite <-Hc1. apply take_at_Permutation. unfold sort_by_day.
    by rewrite (argsort_Permutation (take_at row0 c1)), take_at_length.
  - unfold cs. rewrite <-take_at_take_at by done. apply argsort_sorted.
  - split_and!; [done|done|by rewrite length_fmap|].
    intros k Hk. rewrite take_at_length in Hk.
    set (days := take_at row0 cs) in *.
    destruct (lookup_lt_is_Some_2 days k) as [d Hd].
    { unfold days. by rewrite take_at_length. }
    rewrite (list_lookup_total_correct _ _ _ Hd).
    rewrite list_lookup_fmap, Hd. simpl. f_equal.
    rewrite observation_at_first_equal.
    destruct (first_equal days d) as [j|] eqn:Hj; [|done].
    apply first_equal_Some in Hj as [(y & Hy%lookup_lt_Some & _) _].
    unfold days in Hy. rewrite take_at_length in Hy.
    unfold cols_at. rewrite <-fmap_tail. by apply column_at_cols_at.
Qed.
End AlignerProperties.

Section AlignedOutput.
Context {F : Type} `{NumpySort F}.

(** Every subject of a successful [format_observations]. *)
Lemma format_observations_subject (otu_table : matrix F) (otu_seq_id : list string)
    (evs : event_args) (IDs : list string) (Y U : list (matrix F)) (T : list (list F))
    (i : nat) (s : string) :
  format_observations otu_table otu_seq_id evs = Ok (IDs, Y, U, T) →
  IDs !! i = Some s →
  ∃ row0 y u t, Y !! i = Some y ∧ U !! i = Some u ∧ T !! i = Some t
    ∧ column_order otu_seq_id row0 s ≡ₚ subject_columns otu_seq_id s
    ∧ Sorted (λ a b, np_le a b = true) t
    ∧ aligned otu_table row0 (column_order otu_seq_id row0 s) y t
    ∧ length u = length t
    ∧ effects_of t evs s = Ok u.
Proof.
  intros (-> & YUT & Hmap & -> & -> & ->)%format_observations_Ok Hs.
  rewrite (np_unique_perm _ otu_seq_id) in Hmap
    by apply take_at_Permutation, argsort_Permutation.
  destruct (rmap_lookup _ _ _ _ _ Hmap Hs) as ([[obs eff] days] & Hi & Hsub).
  apply format_subject_aligned in Hsub as (row0 & Hperm & Hsorted & Hal & Hlen & Heff).
  exists row0, obs, eff, days. rewrite !list_lookup_fmap, Hi. done.
Qed.

(** Without repeated times and without NaN every column supplies its own
    row of counts. *)
Lemma aligned_distinct (otu_table : matrix F) (row0 : list F) (cs : list nat)
    (y : matrix F) (t : list F) :
  aligned otu_table row0 cs y t →
  distinct_times t →
  y = count_columns otu_table cs.
Proof.
  intros (_ & Ht & Hlen & Hrows) Hdist. unfold count_columns.
  assert (length t = length cs) as Hcs by (by rewrite Ht, take_at_length).
  apply list_eq. intros k. rewrite list_lookup_fmap.
  destruct (decide (k < length t)) as [Hk|Hk].
  - rewrite (Hrows k Hk).
    destruct (lookup_lt_is_Some_2 t k Hk) as [d Hd].
    rewrite (list_lookup_total_correct _ _ _ Hd).
    rewrite (first_equal_intro t d k d Hd).
    + destruct (lookup_lt_is_Some_2 cs k) as [c Hc]; [lia|].
      by rewrite Hc, (list_lookup_total_correct _ _ _ Hc).
    + rewrite (Hdist k k d d Hd Hd). by apply bool_decide_eq_true.
    + intros j a Hj Ha. rewrite (Hdist j k a d Ha Hd).
      apply bool_decide_eq_false. lia.
  - rewrite (proj2 (lookup_ge_None y k)) by lia.
    by rewrite (proj2 (lookup_ge_None cs k)) by lia.
Qed.
End AlignedOutput.

(** C1 as stated fails on both counts.  Two columns of one subject with
    the same time both stay in the time vector, which then repeats that
    time.  And the column whose counts are kept for a repeated time is the
    one the sort puts first, which need not be the first in the order of the
    table: for a sort that puts equal times in reverse index order, as
    [np.argsort] is free to do, the counts kept for time 0 are those of the
    fourth column and the counts kept for time 1 those of the second. *)
Lemma format_observations_keeps_duplicate_times :
  ¬ (∀ (otu_table : matrix Z) (otu_seq_id IDs : list string)
       (Y U : list (matrix Z)) (T : list (list Z)),
       format_observations otu_table otu_seq_id None = Ok (IDs, Y, U, T) →
       forallb strictly_increasing T = true)
  ∧ ∃ sort : Argsort Z,
      ArgsortLaws (H:=float_inhabited) np_le sort
      ∧ @format_observations Z _ _ sort
          [[1; 1; 0; 0]; [10; 11; 12; 13]]%Z ["A"; "A"; "A"; "A"] None
        = Ok (["A"], [[[13]; [13]; [11]; [11]]]%Z, [[[0]; [0]; [0]; [0]]]%Z,
              [[0; 0; 1; 1]]%Z).
Proof.
  split.
  - intros Hclaim.
    assert (forallb strictly_increasing [[1; 1]]%Z = true) as Hinc.
    { apply (Hclaim [[1; 1]; [5; 7]]%Z ["A"; "A"] ["A"] [[[5]; [5]]]%Z [[[0]; [0]]]%Z).
      vm_compute. reflexivity. }
    discriminate Hinc.
  - exists ZFloat.argsort_Z_desc. split; [apply argsort_Z_desc_laws|].
    vm_compute. reflexivity.
Qed.

(** C1, amended: each subject's time vector has one entry per column of
    the subject, in the order [np.argsort] gives the columns (ascending
    times, NaN last), so a time carried by several columns is repeated; the
    count matrix has one row per entry of the time vector, and the row of an
    entry is the count column of the first column, in that order, whose time
    equals the entry: the rows of columns with a repeated time are copies of
    the row of the first of them, and their own counts are dropped. *)
Theorem format_observations_times {F : Type} `{NumpySort F}
    (otu_table : matrix F) (otu_seq_id : list string) (evs : event_args)
    (IDs : list string) (Y U : list (matrix F)) (T : list (list F)) :
  format_observations otu_table otu_seq_id evs = Ok (IDs, Y, U, T) →
  ∀ i s, IDs !! i = Some s →
    ∃ row0 y t, Y !! i = Some y ∧ T !! i = Some t
      ∧ column_order otu_seq_id row0 s ≡ₚ subject_columns otu_seq_id s
      ∧ Sorted (λ a b, np_le a b = true) t
      ∧ aligned otu_table row0 (column_order otu_seq_id row0 s) y t.
Proof.
  intros Hfmt i s Hs.
  destruct (format_observations_subject _ _ _ _ _ _ _ _ _ Hfmt Hs)
    as (row0 & y & u & t & Hy & _ & Ht & Hperm & Hsorted & Hal & _).
  by exists row0, y, t.
Qed.

Lemma format_observations_times_witness :
  ∃ (row0 : list Z) (y : matrix Z) (t : list Z),
    [[[5]; [5]]]%Z !! 0 = Some y ∧ [[1; 1]]%Z !! 0 = Some t
    ∧ column_order ["A"; "A"] row0 "A" ≡ₚ subject_columns ["A"; "A"] "A"
    ∧ Sorted (λ a b, np_le a b = true) t
    ∧ aligned [[1; 1]; [5; 7]]%Z row0 (column_order ["A"; "A"] row0 "A") y t.
Proof.
  refine (format_observations_times (F:=Z) [[1; 1]; [5; 7]]%Z ["A"; "A"] None
            ["A"] [[[5]; [5]]]%Z [[[0]; [0]]]%Z [[1; 1]]%Z _ 0 "A" _).
  - vm_compute. reflexivity.
  - reflexivity.
Defined.

(** * Further properties of the loader *)

(** ** Fields of a line *)

Lemma str_split_nonempty (sep : ascii) (s : string) : str_split sep s ≠ [].
Proof.
  destruct s as [|c s]; simpl; [done|].
  destruct (Ascii.eqb c sep); [done|]. by destruct (str_split sep s).
Qed.

Lemma str_split_length_cons (sep c : ascii) (s : string) :
  length (str_split sep (String c s))
  = if Ascii.eqb c sep then S (length (str_split sep s)) else length (str_split sep s).
Proof.
  simpl. destruct (Ascii.eqb c sep); [done|].
  pose proof (str_split_nonempty sep s). by destruct (str_split sep s).
Qed.

Lemma str_split_length_lstrip (sep : ascii) (s : string) :
  sep ≠ LF → length (str_split sep (lstrip_nl s)) = length (str_split sep s).
Proof.
  intros Hsep. induction s as [|c s IH]; [done|].
  cbn [lstrip_nl]. destruct (Ascii.eqb c LF) eqn:Hc; [|done].
  apply Ascii.eqb_eq in Hc as ->. rewrite IH, str_split_length_cons.
  by apply not_eq_sym, Ascii.eqb_neq in Hsep as ->.
Qed.

Lemma str_split_length_rstrip (sep : ascii) (s : string) :
  sep ≠ LF → length (str_split sep (rstrip_nl s)) = length (str_split sep s).
Proof.
  intros Hsep. induction s as [|c s IH]; [done|].
  rewrite str_split_length_cons, <-IH. cbn [rstrip_nl].
  destruct (rstrip_nl s) as [|c' r] eqn:Hr.
  - destruct (Ascii.eqb c LF) eqn:Hc.
    + apply Ascii.eqb_eq in Hc as ->.
      by apply not_eq_sym, Ascii.eqb_neq in Hsep as ->.
    + by rewrite str_split_length_cons.
  - by rewrite str_split_length_cons.
Qed.

(** Stripping the line feeds does not change the number of fields. *)
Lemma fields_length (sep : ascii) (line : string) :
  sep ≠ LF → length (fields sep line) = length (str_split sep line).
Proof.
  intros Hsep. unfold fields, strip_nl.
  by rewrite str_split_length_rstrip, str_split_length_lstrip.
Qed.

Lemma cells_header_length (sep : ascii) (has_rownames : bool) (l0 : string) :
  sep ≠ LF → length (cells sep has_rownames l0) = header_n_col sep has_rownames l0.
Proof.
  intros Hsep. unfold cells, header_n_col. destruct has_rownames.
  - rewrite <-(fields_length sep l0) by done.
    destruct (fields sep l0); simpl; lia.
  - by apply fields_length.
Qed.

(** ** More on parse_otu_table *)

Lemma parse_otu_table_widths {F : Type} `{Float64 F} (lines : list string) (sep : ascii)
    (has_rownames : bool) (seq_id : list string) (table : matrix F) :
  sep ≠ LF →
  parse_otu_table lines sep has_rownames = Ok (seq_id, table) →
  Forall (λ row, length row = length seq_id) table.
Proof.
  intros Hsep. unfold parse_otu_table. destruct lines as [|l0 rest]; [done|].
  intros (table' & Hrows & [= <- <-])%bind_Ok_inv.
  apply parse_otu_rows_shape in Hrows as [_ Hall].
  by rewrite cells_header_length.
Qed.

Section TableParserErrors.
Context {F : Type} `{Float64 F}.

(** Rows that are accepted are passed over; the row counter advances by
    their number. *)
Lemma parse_otu_rows_app sep hr n_col idx pre rest (table : matrix F) :
  parse_otu_rows sep hr n_col idx pre = Ok table →
  parse_otu_rows (F:=F) sep hr n_col idx (pre ++ rest)%list
  = (table' ← parse_otu_rows sep hr n_col (idx + length pre) rest;
     Ok (table ++ table')%list).
Proof.
  revert idx table. induction pre as [|line pre IH]; intros idx table.
  - intros [= <-]. simpl. rewrite Nat.add_0_r.
    by destruct (parse_otu_rows sep hr n_col idx rest).
  - cbn [parse_otu_rows app].
    destruct (negb _); [done|].
    destruct (floats_of_strings _) as [row|]; [|done].
    destruct (_ && _); [done|].
    intros (table' & Hpre & [= <-])%bind_Ok_inv.
    rewrite (IH _ _ Hpre).
    replace (S idx + length pre) with (idx + length (line :: pre)) by (simpl; lia).
    by destruct (parse_otu_rows sep hr n_col _ rest).
Qed.
End TableParserErrors.

(** X1: the matrix [parse_otu_table] returns has one row per line after
    the header, and every row is as wide as the list of sequence ids. *)
Theorem parse_otu_table_shape {F : Type} `{Float64 F}
    (lines : list string) (sep : ascii) (has_rownames : bool)
    (seq_id : list string) (table : matrix F) :
  sep ≠ LF →
  parse_otu_table lines sep has_rownames = Ok (seq_id, table) →
  length table = length lines - 1
  ∧ ∀ k row, table !! k = Some row → length row = length seq_id.
Proof.
  intros Hsep. unfold parse_otu_table. destruct lines as [|l0 rest]; [done|].
  intros (table' & Hrows & [= <- <-])%bind_Ok_inv.
  apply parse_otu_rows_shape in Hrows as [Hlen Hall]. split.
  - simpl. lia.
  - intros k row Hrow. rewrite cells_header_length by done.
    rewrite Forall_forall in Hall. apply Hall. by eapply list_elem_of_lookup_2.
Qed.

Lemma parse_otu_table_shape_witness :
  length [[1; 2]; [5; 3]]%Z
  = length (readlines ("id,A,B" +:+ nl +:+ "day,1,2" +:+ nl +:+ "otu1,5,3" +:+ nl)) - 1
  ∧ ∀ k row, [[1; 2]; [5; 3]]%Z !! k = Some row → length row = length ["A"; "B"].
Proof.
  refine (parse_otu_table_shape (F:=Z)
            (readlines ("id,A,B" +:+ nl +:+ "day,1,2" +:+ nl +:+ "otu1,5,3" +:+ nl))
            ","%char true ["A"; "B"] [[1; 2]; [5; 3]]%Z _ _).
  - discriminate.
  - vm_compute. reflexivity.
Defined.

(** X2: in the matrix [parse_otu_table] returns, no row of index 2 or more
    holds a negative entry. *)
Theorem parse_otu_table_nonneg_from_row_2 {F : Type} `{Float64 F}
    (lines : list string) (sep : ascii) (has_rownames : bool)
    (seq_id : list string) (table : matrix F) (k : nat) (row : list F) :
  parse_otu_table lines sep has_rownames = Ok (seq_id, table) →
  table !! k = Some row → (2 ≤ k)%nat →
  any_negative row = false.
Proof.
  unfold parse_otu_table. destruct lines as [|l0 rest]; [done|].
  intros (table' & Hrows & [= <- <-])%bind_Ok_inv Hrow Hk.
  eapply (parse_otu_rows_nonneg _ _ _ _ _ _ Hrows k); [done|lia].
Qed.

Lemma parse_otu_table_nonneg_from_row_2_witness :
  any_negative [1; 2]%Z = false.
Proof.
  refine (parse_otu_table_nonneg_from_row_2 (F:=Z)
            (readlines ("id,A,B" +:+ nl +:+ "day,1,2" +:+ nl +:+ "otu1,-5,3" +:+ nl +:+
                        "otu2,1,2" +:+ nl))
            ","%char true ["A"; "B"] [[1; 2]; [-5; 3]; [1; 2]]%Z 2 [1; 2]%Z _ _ _).
  - vm_compute. reflexivity.
  - reflexivity.
  - lia.
Defined.

(** X3: when the rows before it are accepted and a row of the right width
    holds a cell that [float] rejects, [parse_otu_table] stops with the
    message "invalid character in row N", where N is the number of data
    rows before it (the time-point row is row 0). *)
Theorem parse_otu_table_invalid_cell {F : Type} `{Float64 F}
    (sep : ascii) (has_rownames : bool) (l0 : string) (pre : list string)
    (bad : string) (post : list string) (r : list string * matrix F) :
  parse_otu_table (l0 :: pre) sep has_rownames = Ok r →
  length (cells sep has_rownames bad) = header_n_col sep has_rownames l0 →
  floats_of_strings (F:=F) (cells sep has_rownames bad) = None →
  parse_otu_table (F:=F) (l0 :: pre ++ bad :: post) sep has_rownames
  = Raise (SystemExit
             ("Error parsing OTU table: invalid character in row " +:+ pretty (length pre))).
Proof.
  unfold parse_otu_table. intros (table & Hpre & _)%bind_Ok_inv Hlen Hbad.
  rewrite (parse_otu_rows_app _ _ _ _ _ _ _ Hpre). cbn [parse_otu_rows].
  apply Nat.eqb_eq in Hlen as ->. by rewrite Hbad.
Qed.

Lemma parse_otu_table_invalid_cell_witness :
  parse_otu_table (F:=Z)
    (readlines ("id,A,B" +:+ nl +:+ "day,1,2" +:+ nl +:+ "otu1,5,x" +:+ nl)) ","%char true
  = Raise (SystemExit "Error parsing OTU table: invalid character in row 1").
Proof.
  refine (parse_otu_table_invalid_cell (F:=Z) ","%char true ("id,A,B" +:+ nl)
            ["day,1,2" +:+ nl] ("otu1,5,x" +:+ nl) [] (["A"; "B"], [[1; 2]]%Z) _ _ _).
  - vm_compute. reflexivity.
  - vm_compute. reflexivity.
  - vm_compute. reflexivity.
Defined.

(** X4: when at least two data rows are accepted before it, a numeric row
    of the right width with a negative entry stops [parse_otu_table] with
    the message "row N has negative entry.", N being the number of data
    rows before it. *)
Theorem parse_otu_table_negative_entry {F : Type} `{Float64 F}
    (sep : ascii) (has_rownames : bool) (l0 : string) (pre : list string)
    (bad : string) (post : list string) (r : list string * matrix F) (row : list F) :
  parse_otu_table (l0 :: pre) sep has_rownames = Ok r →
  length (cells sep has_rownames bad) = header_n_col sep has_rownames l0 →
  floats_of_strings (cells sep has_rownames bad) = Some row →
  any_negative row = true →
  (2 ≤ length pre)%nat →
  parse_otu_table (F:=F) (l0 :: pre ++ bad :: post) sep has_rownames
  = Raise (SystemExit
             ("Error parsing OTU table: row " +:+ pretty (length pre) +:+
              " has negative entry.")).
Proof.
  unfold parse_otu_table. intros (table & Hpre & _)%bind_Ok_inv Hlen Hrow Hneg Hidx.
  rewrite (parse_otu_rows_app _ _ _ _ _ _ _ Hpre). cbn [parse_otu_rows].
  apply Nat.eqb_eq in Hlen as ->. rewrite Hrow, Hneg. simpl.
  by replace (1 <? length pre)%nat with true by (symmetry; apply Nat.ltb_lt; lia).
Qed.

Lemma parse_otu_table_negative_entry_witness :
  parse_otu_table (F:=Z)
    (readlines ("id,A,B" +:+ nl +:+ "day,1,2" +:+ nl +:+ "otu1,1,2" +:+ nl +:+
                "otu2,-5,3" +:+ nl)) ","%char true
  = Raise (SystemExit "Error parsing OTU table: row 2 has negative entry.").
Proof.
  refine (parse_otu_table_negative_entry (F:=Z) ","%char true ("id,A,B" +:+ nl)
            ["day,1,2" +:+ nl; "otu1,1,2" +:+ nl] ("otu2,-5,3" +:+ nl) []
            (["A"; "B"], [[1; 2]; [1; 2]]%Z) [-5; 3]%Z _ _ _ _ _).
  - vm_compute. reflexivity.
  - vm_compute. reflexivity.
  - vm_compute. reflexivity.
  - reflexivity.
  - simpl. lia.
Defined.

(** ** More on parse_event_table *)

Section EventParserErrors.
Context {F : Type} `{Float64 F}.

(** The first loop passes over rows that satisfy its checks. *)
Lemma scan_event_rows_app sep hh n_col idx acc pre rest :
  forallb (row_checked F sep n_col) pre = true →
  scan_event_rows (F:=F) sep hh n_col idx acc (pre ++ rest)%list
  = scan_event_rows (F:=F) sep hh n_col (idx + length pre)
      (first_seen acc (type_names sep pre)) rest.
Proof.
  revert idx acc. induction pre as [|line pre IH]; intros idx acc.
  - intros _. simpl. by rewrite Nat.add_0_r.
  - intros [Hline Hpre]%andb_true_iff.
    apply andb_true_iff in Hline as [[Hlen H2]%andb_true_iff H3].
    cbn [scan_event_rows app]. rewrite Hlen. cbn [negb].
    apply numeric_at_Some in H2 as (c2 & v2 & Hc2 & Hv2).
    apply numeric_at_Some in H3 as (c3 & v3 & Hc3 & Hv3).
    unfold getitem. rewrite Hc2. simpl. rewrite Hv2, Hc3. simpl. rewrite Hv3.
    destruct (fields sep line !! 1) as [c1|] eqn:Hc1; simpl.
    + rewrite (IH _ _ Hpre). by replace (S idx + length pre) with (idx + S (length pre)) by lia.
    + apply lookup_ge_None in Hc1. apply lookup_lt_Some in Hc2. lia.
Qed.

Lemma parse_event_table_scan (lines : list string) (sep : ascii) (hh : bool)
    (l0 : string) (e : exn) :
  (if hh then tail lines else lines) !! 0 = Some l0 →
  scan_event_rows (F:=F) sep hh (length (fields sep l0)) 0 []
    (if hh then tail lines else lines) = Raise e →
  parse_event_table (F:=F) lines sep hh = Raise e.
Proof.
  intros Hl0 Hscan. unfold parse_event_table, getitem. rewrite Hl0. simpl.
  by rewrite Hscan.
Qed.

Lemma event_of_line_Ok (sep : ascii) (event_to_int : gmap string nat)
    (line : string) (ev : event F) (id : string) :
  event_of_line sep event_to_int line = Ok (ev, id) →
  fields sep line !! 0 = Some id
  ∧ (∃ c1, fields sep line !! 1 = Some c1 ∧ event_to_int !! c1 = Some (event_idx ev))
  ∧ fields sep line !! 2 ≫= float_of_string = Some (start_day ev)
  ∧ fields sep line !! 3 ≫= float_of_string = Some (end_day ev)
  ∧ ((4 < length (fields sep line))%nat →
     fields sep line !! 4 ≫= float_of_string = Some (event_size ev))
  ∧ ((length (fields sep line) ≤ 4)%nat → event_size ev = f_one).
Proof.
  unfold event_of_line, getitem.
  destruct (fields sep line !! 0) as [c0|]; simpl; [|done].
  destruct (fields sep line !! 1) as [c1|]; simpl; [|done].
  destruct (event_to_int !! c1) as [e_idx|] eqn:He; simpl; [|done].
  destruct (fields sep line !! 2) as [c2|]; simpl; [|done].
  destruct (float_of_string c2) as [v2|]; simpl; [|done].
  destruct (fields sep line !! 3) as [c3|]; simpl; [|done].
  destruct (float_of_string c3) as [v3|]; simpl; [|done].
  destruct (Nat.ltb_spec 4 (length (fields sep line))) as [Hlt|Hge]; simpl.
  - destruct (fields sep line !! 4) as [c4|]; simpl; [|done].
    destruct (float_of_string c4) as [v4|]; simpl; [|done].
    intros [= <- <-]. simpl. split_and!; first [done|by exists c1|intros; lia].
  - intros [= <- <-]. simpl. split_and!; first [done|by exists c1|intros; lia].
Qed.

Lemma parse_event_table_inv (lines : list string) (sep : ascii) (hh : bool)
    (events : list (event F)) (event_to_int : gmap string nat)
    (seq_id event_types : list string) :
  parse_event_table lines sep hh = Ok (events, event_to_int, seq_id, event_types) →
  ∃ rows,
    rmap (event_of_line sep event_to_int) (if hh then tail lines else lines) = Ok rows
    ∧ events = rows.*1 ∧ seq_id = rows.*2
    ∧ event_types = first_seen [] (type_names sep (if hh then tail lines else lines))
    ∧ event_to_int = dict_of_list ((λ '(i, e), (e, i)) <$> enumerate event_types).
Proof.
  unfold parse_event_table.
  intros (l0 & _ & (types' & Hscan & Hk)%bind_Ok_inv)%bind_Ok_inv.
  apply bind_Ok_inv in Hk as (rows & Hrows & [= <- <- <- <-]).
  apply scan_event_rows_Ok in Hscan as [-> _]. by exists rows.
Qed.
End EventParserErrors.

(** X5: when the rows before it pass the first loop and a row has a number
    of columns different from the first row's, [parse_event_table] stops
    with a message that gives the row number (counted from the header when
    there is one), the number of columns found and the number expected. *)
Theorem parse_event_table_column_mismatch {F : Type} `{Float64 F}
    (lines : list string) (sep : ascii) (has_header : bool)
    (l0 : string) (pre : list string) (bad : string) (post : list string) :
  (if has_header then tail lines else lines) = (pre ++ bad :: post)%list →
  pre !! 0 = Some l0 →
  forallb (row_checked F sep (length (fields sep l0))) pre = true →
  length (fields sep bad) ≠ length (fields sep l0) →
  parse_event_table (F:=F) lines sep has_header
  = Raise (SystemExit
             ("Error parsing event table: row " +:+
              pretty (if has_header then length pre + 1 else length pre) +:+ " has " +:+
              pretty (length (fields sep bad)) +:+ " columns, but header has " +:+
              pretty (length (fields sep l0)) +:+ ".")).
Proof.
  intros Hrows Hl0 Hpre Hbad. apply (parse_event_table_scan _ _ _ l0).
  { rewrite Hrows. by apply lookup_app_l_Some. }
  rewrite Hrows, (scan_event_rows_app _ _ _ _ _ _ _ Hpre). cbn [scan_event_rows].
  by apply Nat.eqb_neq in Hbad as ->.
Qed.

Lemma parse_event_table_column_mismatch_witness :
  parse_event_table (F:=Z)
    (readlines ("ID,eventID,startDay,endDay" +:+ nl +:+ "A,abx,2,5" +:+ nl +:+
                "B,diet,1" +:+ nl)) ","%char true
  = Raise (SystemExit
             "Error parsing event table: row 2 has 3 columns, but header has 4.").
Proof.
  refine (parse_event_table_column_mismatch (F:=Z)
            (readlines ("ID,eventID,startDay,endDay" +:+ nl +:+ "A,abx,2,5" +:+ nl +:+
                        "B,diet,1" +:+ nl))
            ","%char true ("A,abx,2,5" +:+ nl) ["A,abx,2,5" +:+ nl] ("B,diet,1" +:+ nl) []
            _ _ _ _).
  - vm_compute. reflexivity.
  - reflexivity.
  - vm_compute. reflexivity.
  - vm_compute. lia.
Defined.

(** X6: when the rows before it pass the first loop and a row with the
    expected number of columns, at least four, has a start-day or end-day
    cell that [float] rejects, [parse_event_table] stops with the message
    "row N has an invalid entry for start day or end day." *)
Theorem parse_event_table_invalid_day {F : Type} `{Float64 F}
    (lines : list string) (sep : ascii) (has_header : bool)
    (l0 : string) (pre : list string) (bad : string) (post : list string) :
  (if has_header then tail lines else lines) = (pre ++ bad :: post)%list →
  (pre ++ [bad])%list !! 0 = Some l0 →
  forallb (row_checked F sep (length (fields sep l0))) pre = true →
  length (fields sep bad) = length (fields sep l0) →
  (4 ≤ length (fields sep bad))%nat →
  numeric_at F (fields sep bad) 2 && numeric_at F (fields sep bad) 3 = false →
  parse_event_table (F:=F) lines sep has_header
  = Raise (SystemExit
             ("Error parsing event table: row " +:+
              pretty (if has_header then length pre + 1 else length pre) +:+
              " has an invalid entry for start day or end day.")).
Proof.
  intros Hrows Hl0 Hpre Hlen Hwide Hbad. apply (parse_event_table_scan _ _ _ l0).
  { rewrite Hrows. rewrite (app_assoc pre [bad] post : (pre ++ bad :: post = _)%list).
    by apply lookup_app_l_Some. }
  rewrite Hrows, (scan_event_rows_app _ _ _ _ _ _ _ Hpre). cbn [scan_event_rows].
  apply Nat.eqb_eq in Hlen as ->. cbn [negb]. unfold getitem, numeric_at in *.
  destruct (lookup_lt_is_Some_2 (fields sep bad) 2) as [c2 Hc2]; [lia|].
  destruct (lookup_lt_is_Some_2 (fields sep bad) 3) as [c3 Hc3]; [lia|].
  rewrite Hc2, Hc3 in *. simpl in *.
  destruct (float_of_string c2); simpl in *; [|done].
  by destruct (float_of_string c3).
Qed.

Lemma parse_event_table_invalid_day_witness :
  parse_event_table (F:=Z)
    (readlines ("ID,eventID,startDay,endDay" +:+ nl +:+ "A,abx,2,5" +:+ nl +:+
                "B,diet,1,soon" +:+ nl)) ","%char true
  = Raise (SystemExit
             "Error parsing event table: row 2 has an invalid entry for start day or end day.").
Proof.
  refine (parse_event_table_invalid_day (F:=Z)
            (readlines ("ID,eventID,startDay,endDay" +:+ nl +:+ "A,abx,2,5" +:+ nl +:+
                        "B,diet,1,soon" +:+ nl))
            ","%char true ("A,abx,2,5" +:+ nl) ["A,abx,2,5" +:+ nl]
            ("B,diet,1,soon" +:+ nl) [] _ _ _ _ _ _).
  - vm_compute. reflexivity.
  - reflexivity.
  - vm_compute. reflexivity.
  - vm_compute. reflexivity.
  - vm_compute. lia.
  - vm_compute. reflexivity.
Defined.

(** X7: an event table whose first row has fewer than four columns is
    not reported as malformed: when the row has no start-day cell, or a
    numeric one, [parse_event_table] ends with IndexError. *)
Theorem parse_event_table_too_few_columns {F : Type} `{Float64 F}
    (lines : list string) (sep : ascii) (has_header : bool) (l0 : string) :
  (if has_header then tail lines else lines) !! 0 = Some l0 →
  (length (fields sep l0) < 4)%nat →
  fields sep l0 !! 2 = None ∨ numeric_at F (fields sep l0) 2 = true →
  parse_event_table (F:=F) lines sep has_header = Raise IndexError.
Proof.
  intros Hl0 Hlen Hstart. apply (parse_event_table_scan _ _ _ l0); [done|].
  destruct (if has_header then tail lines else lines) as [|l0' rows];
    simplify_eq/=.
  rewrite Nat.eqb_refl. simpl. unfold getitem.
  destruct Hstart as [->|(c2 & v2 & -> & Hv2)%numeric_at_Some]; simpl; [done|].
  rewrite Hv2.
  by rewrite (proj2 (lookup_ge_None (fields sep l0) 3)) by lia.
Qed.

Lemma parse_event_table_too_few_columns_witness :
  parse_event_table (F:=Z)
    (readlines ("ID,eventID,startDay" +:+ nl +:+ "A,abx,2" +:+ nl)) ","%char true
  = Raise IndexError.
Proof.
  refine (parse_event_table_too_few_columns (F:=Z)
            (readlines ("ID,eventID,startDay" +:+ nl +:+ "A,abx,2" +:+ nl))
            ","%char true ("A,abx,2" +:+ nl) _ _ _).
  - reflexivity.
  - vm_compute. lia.
  - right. vm_compute. reflexivity.
Defined.

(** X8: a successful [parse_event_table] returns one record and one
    sequence id per row, in row order.  For row [i]: the id is the first
    cell; the record holds the floats of the start-day and end-day cells;
    its magnitude is the float of the fifth cell when the row has one and
    1 otherwise; and the name found at the record's type index in the list
    of type names is the row's second cell. *)
Theorem parse_event_table_rows {F : Type} `{Float64 F}
    (lines : list string) (sep : ascii) (has_header : bool)
    (events : list (event F)) (event_to_int : gmap string nat)
    (seq_id event_types : list string) :
  parse_event_table lines sep has_header = Ok (events, event_to_int, seq_id, event_types) →
  let rows := if has_header then tail lines else lines in
  length events = length rows
  ∧ length seq_id = length rows
  ∧ ∀ i line, rows !! i = Some line →
      ∃ ev, events !! i = Some ev
        ∧ seq_id !! i = fields sep line !! 0
        ∧ is_Some (fields sep line !! 1)
        ∧ event_types !! event_idx ev = fields sep line !! 1
        ∧ fields sep line !! 2 ≫= float_of_string = Some (start_day ev)
        ∧ fields sep line !! 3 ≫= float_of_string = Some (end_day ev)
        ∧ ((4 < length (fields sep line))%nat →
           fields sep line !! 4 ≫= float_of_string = Some (event_size ev))
        ∧ ((length (fields sep line) ≤ 4)%nat → event_size ev = f_one).
Proof.
  intros (rows' & Hmap & -> & -> & Htypes & Hdict)%parse_event_table_inv rows.
  fold rows in Hmap, Htypes.
  rewrite !length_fmap, (rmap_length _ _ _ Hmap). split_and!; try done.
  intros i line Hline.
  destruct (rmap_lookup _ _ _ _ _ Hmap Hline) as ([ev id] & Hi & Hev).
  apply event_of_line_Ok in Hev as (Hid & (c1 & Hc1 & Hidx) & Hs & He & Hm & Hd).
  exists ev. rewrite !list_lookup_fmap, Hi, Hid, Hc1. simpl.
  split_and!; try done.
  rewrite Hdict in Hidx. apply index_dict_lookup in Hidx; [done|].
  rewrite Htypes. apply first_seen_NoDup, NoDup_nil_2.
Qed.

Lemma parse_event_table_rows_witness :
  ∃ ev : event Z,
    [mk_event 0 2 5 1; mk_event 1 1 1 1]%Z !! 1 = Some ev
    ∧ ["abx"; "diet"] !! event_idx ev = Some "diet"
    ∧ event_size ev = 1%Z.
Proof.
  pose (lines := readlines ("ID,eventID,startDay,endDay" +:+ nl +:+ "A,abx,2,5" +:+ nl +:+
                            "B,diet,1,1" +:+ nl)).
  assert (parse_event_table (F:=Z) lines ","%char true
          = Ok ([mk_event 0 2 5 1; mk_event 1 1 1 1]%Z,
                {["abx" := 0; "diet" := 1]}, ["A"; "B"], ["abx"; "diet"])) as Hparse.
  { vm_compute. reflexivity. }
  destruct (parse_event_table_rows _ _ _ _ _ _ _ Hparse) as (_ & _ & Hrows).
  destruct (Hrows 1 ("B,diet,1,1" +:+ nl) eq_refl)
    as (ev & Hev & _ & _ & Hname & _ & _ & _ & Hsize).
  exists ev. split_and!; [exact Hev|exact Hname|].
  apply Hsize. vm_compute. lia.
Defined.

(** ** More on the event encoder *)

Section EncoderClosedForm.
Context {F : Type} `{Float64 F}.

Lemma encoded_shape (days : list F) (ev : event F) (effects : matrix F) (n k : nat) :
  has_shape n k effects = true → has_shape n k (encoded days ev effects) = true.
Proof.
  rewrite !has_shape_spec. intros [Hlen Hrows]. unfold encoded. split.
  - by rewrite length_imap.
  - intros i row. rewrite list_lookup_imap.
    destruct (effects !! i) as [row'|] eqn:Hrow'; simpl; [|done].
    intros [= <-]. specialize (Hrows _ _ Hrow').
    destruct (i <? length days - 1)%nat; [destruct (in_window days ev i)|];
      by rewrite ?length_insert.
Qed.

Lemma encoded_cell (days : list F) (ev : event F) (effects : matrix F)
    (k i t : nat) :
  has_shape (length days) k effects = true →
  i < length days → t < k →
  cell (encoded days ev effects) i t
  = (λ v, slot_after days t i v ev) <$> cell effects i t.
Proof.
  intros [Hlen Hrows]%has_shape_spec Hi Ht.
  destruct (lookup_lt_is_Some_2 effects i) as [row Hrow]; [lia|].
  specialize (Hrows _ _ Hrow).
  destruct (lookup_lt_is_Some_2 row t) as [v Hv]; [lia|].
  unfold cell, encoded, slot_after. rewrite list_lookup_imap, Hrow. simpl. rewrite Hv. simpl.
  destruct (Nat.eqb_spec (event_idx ev) t) as [->|Hne].
  - destruct (i <? length days - 1)%nat; [destruct (in_window days ev i)|];
      rewrite ?list_lookup_insert_eq by lia; done.
  - destruct (i <? length days - 1)%nat; [destruct (in_window days ev i)|];
      rewrite ?list_lookup_insert_ne by done; done.
Qed.

Lemma encoded_cell_other (days : list F) (ev : event F) (effects : matrix F)
    (i j : nat) :
  j ≠ event_idx ev →
  cell (encoded days ev effects) i j = cell effects i j.
Proof.
  intros Hj. unfold cell, encoded. rewrite list_lookup_imap.
  destruct (effects !! i) as [row|]; simpl; [|done].
  destruct (i <? length days - 1)%nat; [destruct (in_window days ev i)|];
    rewrite ?list_lookup_insert_ne by done; done.
Qed.

(** The event loop of [format_observations], started on the zero matrix. *)
Lemma encode_events_closed (days : list F) (evs : list (event F)) (k : nat) :
  0 < length days →
  forallb (λ ev, (event_idx ev <? k)%nat) evs = true →
  ∃ effects,
    rfold (encode_event days) (replicate (length days) (replicate k f_zero)) evs
    = Ok effects
    ∧ has_shape (length days) k effects = true
    ∧ ∀ i t, i < length days → t < k →
        cell effects i t = Some (slot_value days evs t i).
Proof.
  intros Hn. induction evs as [|ev evs IH] using rev_ind; intros Hidx.
  - eexists. split_and!; [done| |].
    + apply has_shape_spec. split; [by rewrite length_replicate|].
      intros i row [-> _]%lookup_replicate. by rewrite length_replicate.
    + intros i t Hi Ht. unfold cell, slot_value. simpl.
      rewrite lookup_replicate_2 by done. simpl. by rewrite lookup_replicate_2.
  - rewrite forallb_app in Hidx. apply andb_true_iff in Hidx as [Hevs Hev].
    simpl in Hev. rewrite andb_true_r in Hev. apply Nat.ltb_lt in Hev.
    destruct (IH Hevs) as (effects & Hfold & Hshape & Hcells).
    exists (encoded days ev effects).
    rewrite rfold_snoc, Hfold, bind_Ok. split_and!.
    + by apply (encode_event_closed _ _ _ k).
    + by apply encoded_shape.
    + intros i t Hi Ht. rewrite (encoded_cell _ _ _ k), Hcells by done.
      unfold slot_value. by rewrite foldl_app.
Qed.

Lemma events_of_elem_of (event_table : list (event F)) (event_seq_id : list string)
    (s_id : string) (ev : event F) :
  ev ∈ events_of event_table event_seq_id s_id → ev ∈ event_table.
Proof.
  unfold events_of. intros ([id ev'] & -> & Hin)%list_elem_of_fmap.
  apply list_elem_of_filter in Hin as [_ Hin]. by apply elem_of_zip_r in Hin.
Qed.

Lemma events_of_absent (event_table : list (event F)) (event_seq_id : list string)
    (s_id : string) :
  s_id ∉ event_seq_id → events_of event_table event_seq_id s_id = [].
Proof.
  intros Hs. unfold events_of.
  destruct (filter _ _) as [|[id ev] l] eqn:Hf; [done|]. exfalso.
  assert ((id, ev) ∈ filter (λ p : string * event F, p.1 = s_id)
                       (zip event_seq_id event_table)) as Hin.
  { rewrite Hf. by left. }
  apply list_elem_of_filter in Hin as [Hid Hin]. simpl in Hid. subst id.
  by apply elem_of_zip_l in Hin.
Qed.

Lemma setitem2_shape (m m' : matrix F) (i j n k : nat) (v : F) :
  has_shape n k m = true → setitem2 m i j v = Ok m' → has_shape n k m' = true.
Proof.
  rewrite !has_shape_spec. intros [Hlen Hrows]. unfold setitem2.
  destruct (m !! i) as [row|] eqn:Hrow; [|done].
  destruct (j <? length row)%nat; [|done]. intros [= <-]. split.
  - by rewrite length_insert.
  - intros i' row'. destruct (decide (i' = i)) as [->|Hne].
    + rewrite list_lookup_insert_eq by (by eapply lookup_lt_Some).
      intros [= <-]. rewrite length_insert. by eapply Hrows.
    + rewrite list_lookup_insert_ne by done. apply Hrows.
Qed.

Lemma encode_event_shape (days : list F) (effects effects' : matrix F)
    (ev : event F) (n k : nat) :
  has_shape n k effects = true →
  encode_event days effects ev = Ok effects' → has_shape n k effects' = true.
Proof.
  intros Hshape. unfold encode_event.
  intros (e1 & Hloop & (d_last & _ & Hset)%bind_Ok_inv)%bind_Ok_inv.
  eapply setitem2_shape; [|exact Hset].
  revert Hloop. apply (rfold_invariant (λ e : matrix F, has_shape n k e = true)); [done|].
  intros e [i d] e' _ He. unfold encode_day.
  destruct (_ && _); [by apply setitem2_shape|].
  destruct (_ && _); [by apply setitem2_shape|].
  by intros [= <-].
Qed.

Lemma effects_of_shape (days : list F) (event_table : list (event F))
    (event_seq_id : list string) (event_to_int : gmap string nat) (s_id : string)
    (effects : matrix F) :
  effects_of days (Some (event_table, event_seq_id, event_to_int)) s_id = Ok effects →
  has_shape (length days) (size event_to_int) effects = true.
Proof.
  unfold effects_of.
  apply (rfold_invariant
           (λ e : matrix F, has_shape (length days) (size event_to_int) e = true)).
  - apply has_shape_spec. split; [by rewrite length_replicate|].
    intros i row [-> _]%lookup_replicate. by rewrite length_replicate.
  - intros e ev e' _ He. by apply encode_event_shape.
Qed.
End EncoderClosedForm.

(** X9: processing one event record touches only the column of its
    type, and in that column it leaves every slot before the last day whose
    window test fails as it was; the matrix keeps its shape. *)
Theorem encode_event_frame {F : Type} `{Float64 F}
    (days : list F) (effects : matrix F) (ev : event F) (k : nat) :
  has_shape (length days) k effects = true →
  event_idx ev < k →
  0 < length days →
  ∃ effects', encode_event days effects ev = Ok effects'
    ∧ has_shape (length days) k effects' = true
    ∧ (∀ i j, j ≠ event_idx ev → cell effects' i j = cell effects i j)
    ∧ (∀ i, S i < length days → in_window days ev i = false →
         cell effects' i (event_idx ev) = cell effects i (event_idx ev)).
Proof.
  intros Hshape Ht Hn. exists (encoded days ev effects). split_and!.
  - by apply (encode_event_closed _ _ _ k).
  - by apply encoded_shape.
  - intros i j Hj. by apply encoded_cell_other.
  - intros i Hi Hw. rewrite (encoded_cell _ _ _ k) by (done || lia).
    unfold slot_after. rewrite Nat.eqb_refl, Hw.
    replace (i <? length days - 1)%nat with true by (symmetry; apply Nat.ltb_lt; lia).
    by destruct (cell effects i (event_idx ev)).
Qed.

Lemma encode_event_frame_witness :
  ∃ effects' : matrix Z,
    encode_event [1; 2; 3; 6]%Z [[4; 9]; [4; 9]; [4; 9]; [4; 9]]%Z (mk_event 0 2 5 3)%Z
    = Ok effects'
    ∧ has_shape 4 2 effects' = true
    ∧ (∀ i j, j ≠ 0 → cell effects' i j = cell [[4; 9]; [4; 9]; [4; 9]; [4; 9]]%Z i j)
    ∧ (∀ i, S i < 4 → in_window [1; 2; 3; 6]%Z (mk_event 0 2 5 3)%Z i = false →
         cell effects' i 0 = cell [[4; 9]; [4; 9]; [4; 9]; [4; 9]]%Z i 0).
Proof.
  refine (encode_event_frame (F:=Z) [1; 2; 3; 6]%Z [[4; 9]; [4; 9]; [4; 9]; [4; 9]]%Z
            (mk_event 0 2 5 3)%Z 2 _ _ _).
  - reflexivity.
  - simpl. lia.
  - simpl. lia.
Defined.

(** X10: the effect matrix of a subject with at least one day, when
    every record of the subject has a type index below the number of event
    types, exists, has one row per day and one column per event type, and
    its slot [(i, t)] is what the subject's records leave there when taken
    in table order: the last record of type [t] that writes the slot
    decides it. *)
Theorem effects_of_closed {F : Type} `{Float64 F}
    (days : list F) (event_table : list (event F)) (event_seq_id : list string)
    (event_to_int : gmap string nat) (s_id : string) :
  0 < length days →
  forallb (λ ev, (event_idx ev <? size event_to_int)%nat)
    (events_of event_table event_seq_id s_id) = true →
  ∃ effects,
    effects_of days (Some (event_table, event_seq_id, event_to_int)) s_id = Ok effects
    ∧ has_shape (length days) (size event_to_int) effects = true
    ∧ ∀ i t, i < length days → t < size event_to_int →
        cell effects i t
        = Some (slot_value days (events_of event_table event_seq_id s_id) t i).
Proof. intros Hn Hidx. unfold effects_of. by apply encode_events_closed. Qed.

Lemma effects_of_closed_witness :
  ∃ effects : matrix Z,
    effects_of [1; 2; 3]%Z
      (Some ([mk_event 0 1 2 5; mk_event 0 2 3 7; mk_event 0 1 1 9]%Z,
             ["A"; "A"; "B"], {["abx" := 0]})) "A"
    = Ok effects
    ∧ has_shape 3 1 effects = true
    ∧ ∀ i t, i < 3 → t < 1 →
        cell effects i t
        = Some (slot_value [1; 2; 3]%Z [mk_event 0 1 2 5; mk_event 0 2 3 7]%Z t i).
Proof.
  refine (effects_of_closed (F:=Z) [1; 2; 3]%Z
            [mk_event 0 1 2 5; mk_event 0 2 3 7; mk_event 0 1 1 9]%Z
            ["A"; "A"; "B"] {["abx" := 0]} "A" _ _).
  - simpl. lia.
  - vm_compute. reflexivity.
Defined.

(** X11: a subject that no row of the event table names gets an effect
    matrix of zeros with one row per day and one column per event type. *)
Theorem effects_of_absent_subject {F : Type} `{Float64 F}
    (days : list F) (event_table : list (event F)) (event_seq_id : list string)
    (event_to_int : gmap string nat) (s_id : string) :
  s_id ∉ event_seq_id →
  effects_of days (Some (event_table, event_seq_id, event_to_int)) s_id
  = Ok (replicate (length days) (replicate (size event_to_int) f_zero)).
Proof. intros Hs. unfold effects_of. by rewrite events_of_absent. Qed.

Lemma effects_of_absent_subject_witness :
  effects_of [1; 2]%Z
    (Some ([mk_event 0 1 2 5]%Z, ["A"], {["abx" := 0; "diet" := 1]})) "B"
  = Ok [[0; 0]; [0; 0]]%Z.
Proof.
  refine (effects_of_absent_subject (F:=Z) [1; 2]%Z [mk_event 0 1 2 5]%Z ["A"]
            {["abx" := 0; "diet" := 1]} "B" _).
  intros Hin. apply list_elem_of_singleton in Hin. discriminate.
Defined.

(** ** More on the pipeline *)

Lemma index_dict_size (l : list string) :
  NoDup l → size (dict_of_list ((λ '(i, e), (e, i)) <$> enumerate l)) = length l.
Proof.
  intros Hnd. rewrite <-size_dom, <-(size_list_to_set (C:=gset string) l) by done.
  f_equal. apply set_eq. intros x.
  rewrite elem_of_dom, elem_of_list_to_set, list_elem_of_lookup.
  unfold is_Some. by setoid_rewrite (index_dict_lookup l x _ Hnd).
Qed.

Lemma rmap_total {A B} (f : A → result B) (l : list A) :
  (∀ x, x ∈ l → ∃ y, f x = Ok y) → ∃ ys, rmap f l = Ok ys.
Proof.
  induction l as [|x l IH]; intros Hall; simpl; [by eexists|].
  destruct (Hall x) as [y ->]; [by left|].
  destruct IH as [ys ->]; [by intros ??; apply Hall; right|].
  by eexists.
Qed.

Lemma is_Ok_true {A} (r : result A) : is_Ok r = true ↔ ∃ a, r = Ok a.
Proof.
  destruct r as [a|e]; simpl; split; try done.
  - by exists a.
  - by intros [a Ha].
Qed.

Section PipelineTotal.
Context {F : Type} `{NumpySort F}.

Lemma parse_event_table_in_range (lines : list string) (sep : ascii) (hh : bool)
    (events : list (event F)) (event_to_int : gmap string nat)
    (seq_id event_types : list string) :
  parse_event_table lines sep hh = Ok (events, event_to_int, seq_id, event_types) →
  size event_to_int = length event_types
  ∧ events_in_range (Some (events, seq_id, event_to_int)) = true.
Proof.
  intros (rows & Hmap & -> & -> & Htypes & Hdict)%parse_event_table_inv.
  assert (NoDup event_types) as Hnd.
  { rewrite Htypes. apply first_seen_NoDup, NoDup_nil_2. }
  assert (size event_to_int = length event_types) as Hsize.
  { rewrite Hdict. by apply index_dict_size. }
  split; [done|]. simpl. apply forallb_forall. intros ev Hev%list_elem_of_In.
  apply list_elem_of_fmap in Hev as ([ev' id] & -> & [i Hi]%list_elem_of_lookup).
  destruct (rmap_lookup_inv _ _ _ _ _ Hmap Hi) as (line & _ & Hline).
  apply event_of_line_Ok in Hline as (_ & (c1 & _ & Hidx) & _).
  simpl. apply Nat.ltb_lt. rewrite Hsize.
  rewrite Hdict in Hidx. apply index_dict_lookup in Hidx; [|done].
  by eapply lookup_lt_Some.
Qed.

Lemma format_subject_total (otu_table : matrix F) (otu_seq_id : list string)
    (evs : event_args) (s_id : string) (row0 : list F) :
  otu_table !! 0 = Some row0 →
  (∀ i, i < length otu_seq_id → f_eqb (row0 !!! i) (row0 !!! i) = true) →
  s_id ∈ otu_seq_id →
  events_in_range evs = true →
  ∃ r, format_subject otu_table otu_seq_id evs s_id = Ok r.
Proof.
  intros Hrow0 Hnan Hs Hrange. unfold format_subject, getitem.
  rewrite cols_at_lookup, Hrow0. simpl.
  rewrite !cols_at_lookup, Hrow0. simpl.
  set (idx := argwhere _ otu_seq_id).
  set (days := take_at (take_at row0 idx) _).
  set (seq := cols_at (cols_at otu_table idx) _).
  assert (0 < length days) as Hn.
  { unfold days. rewrite take_at_length, argsort_length, take_at_length.
    by apply subject_columns_nonempty. }
  assert (np_array (observation_at seq days <$> days)
          = Ok (observation_at seq days <$> days)) as Hobs.
  { apply (np_array_total _ (length seq - 1)).
    intros r (d & -> & Hd)%list_elem_of_fmap.
    apply (observation_at_length _ _ _ d); [done|].
    apply list_elem_of_lookup in Hd as [k Hk]. unfold days, take_at in Hk.
    rewrite list_lookup_fmap in Hk.
    destruct (argsort _ !! k) as [j|] eqn:Hj; simplify_eq/=.
    assert (j < length idx) as Hjlt.
    { apply list_elem_of_lookup_2, argsort_lt in Hj. by rewrite length_fmap in Hj. }
    fold (take_at row0 idx). rewrite (take_at_lookup row0 idx j Hjlt).
    apply Hnan, (argwhere_lt (λ x, bool_decide (x = s_id))).
    eapply list_elem_of_lookup_2. by apply list_lookup_lookup_total_lt. }
  assert (∃ effects, effects_of days evs s_id = Ok effects) as [effects ->].
  { destruct evs as [[[event_table event_seq_id] event_to_int]|]; [|by eexists].
    unfold effects_of.
    destruct (encode_events_closed days (events_of event_table event_seq_id s_id)
                (size event_to_int) Hn) as (effects & Heff & _); [|by exists effects].
    simpl in Hrange. rewrite forallb_forall in Hrange |- *.
    intros ev Hev%list_elem_of_In%events_of_elem_of. by apply Hrange, list_elem_of_In. }
  rewrite bind_Ok, Hobs. by eexists.
Qed.

Lemma format_observations_total (otu_table : matrix F) (otu_seq_id : list string)
    (evs : event_args) (row0 : list F) :
  otu_table !! 0 = Some row0 →
  (∀ i, i < length otu_seq_id → f_eqb (row0 !!! i) (row0 !!! i) = true) →
  events_in_range evs = true →
  ∃ r, format_observations otu_table otu_seq_id evs = Ok r.
Proof.
  intros Hrow0 Hnan Hrange. unfold format_observations.
  assert (∃ YUT,
            rmap (format_subject (cols_at otu_table (argsort otu_seq_id))
                    (take_at otu_seq_id (argsort otu_seq_id)) evs)
                 (np_unique (take_at otu_seq_id (argsort otu_seq_id)))
            = Ok YUT) as [YUT HY].
  { apply rmap_total. intros s Hs.
    apply (proj1 (np_unique_elem_of _ _)) in Hs.
    eapply format_subject_total; [|  |done..].
    - by rewrite cols_at_lookup, Hrow0.
    - intros i Hi. rewrite take_at_length in Hi.
      rewrite (take_at_lookup row0 _ i Hi). apply Hnan, argsort_lt.
      eapply list_elem_of_lookup_2. by apply list_lookup_lookup_total_lt. }
  rewrite HY. by eexists.
Qed.
End PipelineTotal.

(** ** The parallel lists of load_observations *)

Lemma events_of_records {F : Type} (event_table : list (event F))
    (event_seq_id : list string) (s : string) :
  events_of event_table event_seq_id s = records_of s event_seq_id event_table.
Proof.
  unfold events_of. revert event_table.
  induction event_seq_id as [|id ids IH]; intros [|ev evs]; try done.
  simpl. rewrite filter_cons. simpl.
  destruct (decide (id = s)); simpl; by rewrite IH.
Qed.

Section EffectsOfSubject.
Context {F : Type} `{Float64 F}.

(** The effect matrix of a subject, from the event file. *)
Lemma encodes_events_intro (event_lines : option (list string)) (evs : event_args)
    (s : string) (t : list F) (u : matrix F) :
  0 < length t →
  match event_lines with
  | None => evs = None
  | Some lines =>
      ∃ events event_to_int event_seq_id event_names,
        parse_event_table lines ","%char true
        = Ok (events, event_to_int, event_seq_id, event_names)
        ∧ evs = Some (events, event_seq_id, event_to_int)
  end →
  effects_of t evs s = Ok u →
  encodes_events event_lines s t u.
Proof.
  intros Hn Hev Heff. destruct event_lines as [lines|]; simpl.
  - destruct Hev as (events & e2i & ids & enames & Hparse & ->).
    exists events, e2i, ids, enames. split; [done|].
    pose proof (parse_event_table_in_range _ _ _ _ _ _ _ Hparse) as [Hsize Hrange].
    unfold effects_of in Heff.
    destruct (encode_events_closed t (events_of events ids s) (size e2i) Hn)
      as (eff' & Heff' & Hshape & Hcells).
    { simpl in Hrange. rewrite forallb_forall in Hrange |- *.
      intros ev Hev%list_elem_of_In%events_of_elem_of. by apply Hrange, list_elem_of_In. }
    rewrite Heff' in Heff. injection Heff as <-. rewrite <-Hsize. split; [done|].
    intros r c Hr Hc. rewrite Hcells by done. by rewrite events_of_records.
  - subst evs. simpl in Heff. by injection Heff as <-.
Qed.
End EffectsOfSubject.

(** C8 as stated fails when two columns of a subject carry the same
    time: the count matrix of the subject then holds the counts of one of
    them twice and the counts of the other not at all, so it is not the
    data of the subject. *)
Lemma load_observations_drops_duplicate_counts :
  ¬ (∀ (otu_lines : list string) (IDs : list string) (Y U : list (matrix Z))
       (T : list (list Z)) (names : option (list string)),
       load_observations otu_lines None = Ok (IDs, Y, U, T, names) →
       ∀ otu_seq_id otu_table i s y,
         parse_otu_table otu_lines ","%char true = Ok (otu_seq_id, otu_table) →
         IDs !! i = Some s → Y !! i = Some y →
         holds_all_columns otu_table otu_seq_id s y).
Proof.
  intros Hclaim.
  destruct (Hclaim (readlines ("id,A,A" +:+ nl +:+ "day,1,1" +:+ nl +:+ "otu1,5,7" +:+ nl))
              ["A"] [[[5]; [5]]]%Z [[[0]; [0]]]%Z [[1; 1]]%Z None eq_refl
              ["A"; "A"] [[1; 1]; [5; 7]]%Z 0 "A" [[5]; [5]]%Z eq_refl eq_refl eq_refl)
    as (cs & Hperm & Hy).
  change (subject_columns ["A"; "A"] "A") with [0; 1] in Hperm.
  pose proof (Permutation_length Hperm) as Hlen.
  destruct cs as [|a [|b [|c cs]]]; try done.
  assert (a ∈ [0; 1]) as Ha by (rewrite <-Hperm; by left).
  assert (b ∈ [0; 1]) as Hb by (rewrite <-Hperm; right; by left).
  assert (NoDup [a; b]) as Hnd by (rewrite Hperm; apply (NoDup_seq 0 2)).
  apply NoDup_cons in Hnd as [Hab _]. rewrite list_elem_of_singleton in Hab.
  apply elem_of_cons in Ha as [->|Ha]; [|apply list_elem_of_singleton in Ha as ->];
    (apply elem_of_cons in Hb as [->|Hb]; [|apply list_elem_of_singleton in Hb as ->]);
    try done; discriminate Hy.
Qed.

(** C8, amended: [load_observations] returns the distinct sequence ids of
    the abundance table in ascending order, and lists [Y], [U], [T] of the
    same length.  At every index the three entries belong to the subject at
    that index.  [T[i]] lists the times of all columns of the subject, in
    the order [np.argsort] gives them (ascending, NaN last).  [Y[i]] has one
    row per entry of [T[i]]: the counts of the first column, in that order,
    whose time equals the entry; when the times of the subject are distinct
    and none is NaN, these are the count columns of the subject, each once.
    [U[i]] has one row per entry of [T[i]]: zeros in one column without an
    event file; with one, a column per event type, holding what the records
    of the event rows of the subject leave there. *)
Theorem load_observations_parallel {F : Type} `{NumpySort F}
    (otu_lines : list string) (event_lines : option (list string))
    (IDs : list string) (Y U : list (matrix F)) (T : list (list F))
    (names : option (list string)) :
  load_observations otu_lines event_lines = Ok (IDs, Y, U, T, names) →
  ∃ otu_seq_id otu_table,
    parse_otu_table otu_lines ","%char true = Ok (otu_seq_id, otu_table)
    ∧ StronglySorted String.le IDs
    ∧ NoDup IDs
    ∧ (∀ x, x ∈ IDs ↔ x ∈ otu_seq_id)
    ∧ length Y = length IDs ∧ length U = length IDs ∧ length T = length IDs
    ∧ ∀ i s, IDs !! i = Some s →
        ∃ row0 y u t, Y !! i = Some y ∧ U !! i = Some u ∧ T !! i = Some t
          ∧ column_order otu_seq_id row0 s ≡ₚ subject_columns otu_seq_id s
          ∧ Sorted (λ a b, np_le a b = true) t
          ∧ aligned otu_table row0 (column_order otu_seq_id row0 s) y t
          ∧ (distinct_times t →
             y = count_columns otu_table (column_order otu_seq_id row0 s))
          ∧ length u = length t
          ∧ encodes_events event_lines s t u.
Proof.
  intros (otu_seq_id & otu_table & evs & Hotu & Hfmt & Hev)%load_observations_Ok.
  exists otu_seq_id, otu_table.
  pose proof Hfmt as (-> & YUT & Hmap & -> & -> & ->)%format_observations_Ok.
  apply rmap_length in Hmap as Hlen.
  rewrite (np_unique_perm _ otu_seq_id) in Hlen
    by apply take_at_Permutation, argsort_Permutation.
  split_and!; [done|apply np_unique_sorted|apply np_unique_NoDup
              |apply np_unique_elem_of|by rewrite !length_fmap..|].
  intros i s Hs.
  destruct (format_observations_subject _ _ _ _ _ _ _ _ _ Hfmt Hs)
    as (row0 & y & u & t & Hy & Hu & Ht & Hperm & Hsorted & Hal & Hlen' & Heff).
  exists row0, y, u, t. split_and!; [done..| |done|].
  - intros Hdist. by eapply aligned_distinct.
  - apply (encodes_events_intro event_lines evs); [| |done].
    + destruct Hal as (_ & -> & _). rewrite take_at_length, Hperm.
      apply subject_columns_nonempty, np_unique_elem_of.
      by eapply list_elem_of_lookup_2.
    + destruct event_lines as [lines|]; [|by destruct Hev].
      destruct Hev as (events & e2i & ids & enames & Hparse & -> & _).
      by exists events, e2i, ids, enames.
Qed.

Lemma load_observations_parallel_witness :
  ∃ (otu_seq_id : list string) (otu_table : matrix Z),
    parse_otu_table
      (readlines ("id,B,A,B" +:+ nl +:+ "day,1,2,0" +:+ nl +:+ "otu1,5,3,4" +:+ nl))
      ","%char true
    = Ok (otu_seq_id, otu_table)
    ∧ StronglySorted String.le ["A"; "B"]
    ∧ ∀ i s, ["A"; "B"] !! i = Some s →
        ∃ row0 y u t, [[[3]]; [[4]; [5]]]%Z !! i = Some y
          ∧ [[[0; 0]]; [[0; 7]; [0; 0]]]%Z !! i = Some u
          ∧ [[2]; [0; 1]]%Z !! i = Some t
          ∧ column_order otu_seq_id row0 s ≡ₚ subject_columns otu_seq_id s
          ∧ Sorted (λ a b, np_le a b = true) t
          ∧ aligned otu_table row0 (column_order otu_seq_id row0 s) y t
          ∧ (distinct_times t →
             y = count_columns otu_table (column_order otu_seq_id row0 s))
          ∧ length u = length t
          ∧ encodes_events
              (Some (readlines ("ID,eventID,startDay,endDay,size" +:+ nl +:+
                                "A,abx,3,5,4" +:+ nl +:+ "B,diet,0,1,7" +:+ nl)))
              s t u.
Proof.
  destruct (load_observations_parallel (F:=Z)
              (readlines ("id,B,A,B" +:+ nl +:+ "day,1,2,0" +:+ nl +:+ "otu1,5,3,4" +:+ nl))
              (Some (readlines ("ID,eventID,startDay,endDay,size" +:+ nl +:+
                                "A,abx,3,5,4" +:+ nl +:+ "B,diet,0,1,7" +:+ nl)))
              ["A"; "B"] [[[3]]; [[4]; [5]]]%Z [[[0; 0]]; [[0; 7]; [0; 0]]]%Z
              [[2]; [0; 1]]%Z (Some ["abx"; "diet"]))
    as (otu_seq_id & otu_table & Hotu & Hsorted & _ & _ & _ & _ & _ & Hsub).
  - vm_compute. reflexivity.
  - exists otu_seq_id, otu_table. split_and!; [exact Hotu|exact Hsorted|exact Hsub].
Defined.

(** X12: [load_observations] returns a result whenever [parse_otu_table]
    accepts the abundance file, the file has a time-point row none of whose
    cells is NaN, and [parse_event_table] accepts the event file when one is
    given: aligning and encoding raise nothing on such output of the
    parsers. *)
Theorem load_observations_total {F : Type} `{NumpySort F}
    (otu_lines : list string) (event_lines : option (list string))
    (otu_seq_id : list string) (row0 : list F) (counts : matrix F) :
  parse_otu_table otu_lines ","%char true = Ok (otu_seq_id, row0 :: counts) →
  forallb (λ d, f_eqb d d) row0 = true →
  match event_lines with
  | Some lines => is_Ok (parse_event_table (F:=F) lines ","%char true)
  | None => true
  end = true →
  is_Ok (load_observations otu_lines event_lines) = true.
Proof.
  intros Hotu Hnan Hev.
  assert (∀ i, i < length otu_seq_id → f_eqb (row0 !!! i) (row0 !!! i) = true) as Hnan'.
  { intros i Hi. rewrite forallb_forall in Hnan. apply Hnan, list_elem_of_In.
    apply parse_otu_table_widths in Hotu; [|done].
    apply Forall_cons in Hotu as [Hlen _].
    eapply list_elem_of_lookup_2, list_lookup_lookup_total_lt. lia. }
  unfold load_observations. rewrite Hotu, bind_Ok.
  destruct event_lines as [lines|].
  - apply is_Ok_true in Hev as [[[[events e2i] ids] names] Hparse].
    rewrite Hparse. simpl.
    apply parse_event_table_in_range in Hparse as [_ Hrange].
    destruct (format_observations_total (row0 :: counts) otu_seq_id
                (Some (events, ids, e2i)) row0 eq_refl Hnan' Hrange)
      as [[[[IDs Y] U] T] ->].
    done.
  - simpl.
    destruct (format_observations_total (row0 :: counts) otu_seq_id None row0
                eq_refl Hnan' eq_refl)
      as [[[[IDs Y] U] T] ->].
    done.
Qed.

Lemma load_observations_total_witness :
  is_Ok (load_observations (F:=Z)
           (readlines ("id,B,A,B" +:+ nl +:+ "day,1,2,0" +:+ nl +:+ "otu1,5,3,4" +:+ nl))
           (Some (readlines ("ID,eventID,startDay,endDay" +:+ nl +:+ "A,abx,2,5" +:+ nl +:+
                             "B,diet,0,1" +:+ nl))))
  = true.
Proof.
  refine (load_observations_total (F:=Z)
            (readlines ("id,B,A,B" +:+ nl +:+ "day,1,2,0" +:+ nl +:+ "otu1,5,3,4" +:+ nl))
            (Some (readlines ("ID,eventID,startDay,endDay" +:+ nl +:+
                              "A,abx,2,5" +:+ nl +:+ "B,diet,0,1" +:+ nl)))
            ["B"; "A"; "B"] [1; 2; 0]%Z [[5; 3; 4]]%Z _ _ _).
  - vm_compute. reflexivity.
  - vm_compute. reflexivity.
  - vm_compute. reflexivity.
Defined.

(** X13: an abundance table without a time-point row cannot be aligned:
    with at least one column id [format_observations] raises IndexError
    when it reads the time row of the first subject. *)
Theorem format_observations_no_time_row {F : Type} `{NumpySort F}
    (otu_seq_id : list string) (evs : event_args (F:=F)) :
  otu_seq_id ≠ [] →
  format_observations (F:=F) [] otu_seq_id evs = Raise IndexError.
Proof.
  intros Hids. unfold format_observations.
  destruct (np_unique (take_at otu_seq_id (argsort otu_seq_id)))
    as [|s rest] eqn:Hu.
  - exfalso. destruct otu_seq_id as [|x ids]; [done|].
    assert (x ∈ np_unique (take_at (x :: ids) (argsort (x :: ids)))) as Hin.
    { apply np_unique_elem_of.
      rewrite (take_at_Permutation (x :: ids)) by apply argsort_Permutation. by left. }
    rewrite Hu in Hin. by apply not_elem_of_nil in Hin.
  - done.
Qed.

Lemma format_observations_no_time_row_witness :
  format_observations (F:=Z) [] ["A"; "B"] None = Raise IndexError.
Proof.
  refine (format_observations_no_time_row (F:=Z) ["A"; "B"] None _). discriminate.
Defined.

(** X14: with an event file, every effect matrix [load_observations]
    returns has one row per entry of the subject's time vector and one
    column per returned event-type name. *)
Theorem load_observations_effect_shape {F : Type} `{Float64 F}
    `{!Argsort string} `{!Argsort F}
    (otu_lines event_lines : list string) (IDs : list string)
    (Y U : list (matrix F)) (T : list (list F)) (names : option (list string)) :
  load_observations otu_lines (Some event_lines) = Ok (IDs, Y, U, T, names) →
  ∃ event_names, names = Some event_names
    ∧ ∀ i u, U !! i = Some u →
        ∃ t, T !! i = Some t
          ∧ has_shape (length t) (length event_names) u = true.
Proof.
  intros (otu_seq_id & otu_table & evs & _ & Hfmt & Hev)%load_observations_Ok.
  destruct Hev as (events & e2i & ids & enames & Hparse & -> & ->).
  exists enames. split; [done|].
  apply parse_event_table_in_range in Hparse as [Hsize _].
  apply format_observations_Ok in Hfmt as (_ & YUT & Hmap & _ & -> & ->).
  intros i u Hu. rewrite !list_lookup_fmap in Hu.
  destruct (YUT !! i) as [[[obs eff] days]|] eqn:Hi; simplify_eq/=.
  destruct (rmap_lookup_inv _ _ _ _ _ Hmap Hi) as (s_id & _ & Hsub).
  apply format_subject_Ok in Hsub as (_ & _ & _ & _ & _ & Heff).
  apply effects_of_shape in Heff. rewrite Hsize in Heff.
  exists days. by rewrite list_lookup_fmap, Hi.
Qed.

Lemma load_observations_effect_shape_witness :
  ∃ event_names : list string, Some ["abx"; "diet"] = Some event_names
    ∧ ∀ i u, [[[0; 0]]; [[0; 7]; [0; 0]]]%Z !! i = Some u →
        ∃ t, [[2]; [0; 1]]%Z !! i = Some t
          ∧ has_shape (length t) (length event_names) u = true.
Proof.
  refine (load_observations_effect_shape (F:=Z)
            (readlines ("id,B,A,B" +:+ nl +:+ "day,1,2,0" +:+ nl +:+ "otu1,5,3,4" +:+ nl))
            (readlines ("ID,eventID,startDay,endDay,size" +:+ nl +:+ "A,abx,3,5,4" +:+ nl +:+
                        "B,diet,0,1,7" +:+ nl))
            ["A"; "B"] [[[3]]; [[4]; [5]]]%Z [[[0; 0]]; [[0; 7]; [0; 0]]]%Z
            [[2]; [0; 1]]%Z (Some ["abx"; "diet"]) _).
  vm_compute. reflexivity.
Defined.

(** X15: when at least one time of a subject is not NaN, every row of
    the count matrix [format_observations] returns for the subject has one
    value per count row of the table (the table without its time-point
    row). *)
Theorem format_observations_row_width {F : Type} `{Float64 F}
    `{!Argsort string} `{!Argsort F}
    (otu_table : matrix F) (otu_seq_id : list string) (evs : event_args)
    (IDs : list string) (Y U : list (matrix F)) (T : list (list F))
    (i k : nat) (y : matrix F) (t : list F) (d : F) (row : list F) :
  format_observations otu_table otu_seq_id evs = Ok (IDs, Y, U, T) →
  Y !! i = Some y → T !! i = Some t →
  d ∈ t → f_eqb d d = true →
  y !! k = Some row →
  length row = length otu_table - 1.
Proof.
  intros (-> & YUT & Hmap & -> & _ & ->)%format_observations_Ok Hy Ht Hd Hdd Hrow.
  rewrite !list_lookup_fmap in Hy. rewrite list_lookup_fmap in Ht.
  destruct (YUT !! i) as [[[obs eff] days]|] eqn:Hi; simplify_eq/=.
  destruct (rmap_lookup_inv _ _ _ _ _ Hmap Hi) as (s & _ & Hsub).
  apply format_subject_Ok in Hsub as (seq0 & _ & _ & Hobs & Hsame & _).
  set (seq := cols_at _ _) in Hobs.
  assert (observation_at seq t d ∈ y) as Hin.
  { rewrite Hobs. apply list_elem_of_fmap. eauto. }
  rewrite (Hsame row (observation_at seq t d)); [|by eapply list_elem_of_lookup_2|done].
  rewrite (observation_at_length seq t d d Hd Hdd).
  unfold seq, cols_at. by rewrite !length_fmap.
Qed.

Lemma format_observations_row_width_witness :
  length [5; 1]%Z = length [[1; 2; 0]; [5; 3; 4]; [1; 2; 7]]%Z - 1.
Proof.
  refine (format_observations_row_width (F:=Z)
            [[1; 2; 0]; [5; 3; 4]; [1; 2; 7]]%Z ["B"; "A"; "B"] None
            ["A"; "B"] [[[3; 2]]; [[4; 7]; [5; 1]]]%Z [[[0]]; [[0]; [0]]]%Z
            [[2]; [0; 1]]%Z 1 1 [[4; 7]; [5; 1]]%Z [0; 1]%Z 0%Z [5; 1]%Z _ _ _ _ _ _).
  - vm_compute. reflexivity.
  - reflexivity.
  - reflexivity.
  - by left.
  - reflexivity.
  - reflexivity.
Defined.

(** ** Every column lands in one subject *)

Lemma sum_list_indicator (L : list string) (x : string) :
  NoDup L → x ∈ L →
  sum_list ((λ s, if bool_decide (x = s) then 1 else 0) <$> L) = 1.
Proof.
  induction L as [|s L IH]; intros Hnd Hx; [by apply not_elem_of_nil in Hx|].
  apply NoDup_cons in Hnd as [Hs Hnd].
  csimpl. case_bool_decide as Heq.
  - subst s. assert (sum_list ((λ s, if bool_decide (x = s) then 1 else 0) <$> L) = 0)
      as ->; [|done].
    clear IH Hx Hnd. induction L as [|s L IH]; [done|]. csimpl.
    apply not_elem_of_cons in Hs as [Hne Hs]. rewrite (IH Hs).
    by rewrite bool_decide_eq_false_2.
  - apply elem_of_cons in Hx as [?|Hx]; [done|]. by rewrite (IH Hnd Hx).
Qed.

Lemma subject_columns_snoc_sum (L ids : list string) (x : string) :
  sum_list ((λ s, length (subject_columns (ids ++ [x]) s)) <$> L)
  = sum_list ((λ s, length (subject_columns ids s)) <$> L)
    + sum_list ((λ s, if bool_decide (x = s) then 1 else 0) <$> L).
Proof.
  induction L as [|s L IH]; [done|]. csimpl. rewrite IH.
  unfold subject_columns. rewrite argwhere_snoc, length_app.
  case_bool_decide; simpl; lia.
Qed.

Lemma subject_columns_sum (L otu_seq_id : list string) :
  NoDup L → (∀ x, x ∈ otu_seq_id → x ∈ L) →
  sum_list ((λ s, length (subject_columns otu_seq_id s)) <$> L) = length otu_seq_id.
Proof.
  intros Hnd. induction otu_seq_id as [|x ids IH] using rev_ind; intros Hsub.
  - clear. induction L as [|s L IH]; [done|]. by csimpl.
  - rewrite subject_columns_snoc_sum, IH, sum_list_indicator, length_app; [done..| |].
    + apply Hsub, elem_of_app. right. by left.
    + intros y Hy. apply Hsub, elem_of_app. by left.
Qed.

(** X16: no column of the table is lost or counted twice: the lengths of
    the time vectors [format_observations] returns add up to the number of
    columns. *)
Theorem format_observations_all_columns {F : Type} `{NumpySort F}
    (otu_table : matrix F) (otu_seq_id : list string) (evs : event_args)
    (IDs : list string) (Y U : list (matrix F)) (T : list (list F)) :
  format_observations otu_table otu_seq_id evs = Ok (IDs, Y, U, T) →
  sum_list (length <$> T) = length otu_seq_id.
Proof.
  intros (-> & YUT & Hmap & _ & _ & ->)%format_observations_Ok.
  rewrite (np_unique_perm _ otu_seq_id) in Hmap
    by apply take_at_Permutation, argsort_Permutation.
  rewrite <-(subject_columns_sum (np_unique otu_seq_id) otu_seq_id);
    [|apply np_unique_NoDup|by intros x; apply np_unique_elem_of].
  f_equal. apply list_eq. intros i. rewrite !list_lookup_fmap.
  destruct (np_unique otu_seq_id !! i) as [s|] eqn:Hs; simpl.
  - destruct (rmap_lookup _ _ _ _ _ Hmap Hs) as ([[obs eff] days] & -> & Hsub).
    simpl. f_equal.
    apply format_subject_Ok in Hsub as (seq0 & Hseq0 & Hdays & _).
    rewrite cols_at_lookup in Hdays.
    destruct (cols_at _ _ !! 0) as [r|] eqn:Hr; simplify_eq/=.
    rewrite cols_at_lookup in Hr.
    destruct (cols_at _ _ !! 0) as [r0|] eqn:Hr0; simplify_eq/=.
    rewrite take_at_length, argsort_length, take_at_length.
    rewrite <-(subject_columns_perm otu_seq_id s). by rewrite take_at_length.
  - rewrite (proj2 (lookup_ge_None YUT i)); [done|].
    rewrite (rmap_length _ _ _ Hmap). by apply lookup_ge_None.
Qed.

Lemma format_observations_all_columns_witness :
  sum_list (length <$> [[2]; [0; 1]]%Z) = length ["B"; "A"; "B"].
Proof.
  refine (format_observations_all_columns (F:=Z)
            [[1; 2; 0]; [5; 3; 4]; [1; 2; 7]]%Z ["B"; "A"; "B"] None
            ["A"; "B"] [[[3; 2]]; [[4; 7]; [5; 1]]]%Z [[[0]]; [[0]; [0]]]%Z
            [[2]; [0; 1]]%Z _).
  vm_compute. reflexivity.
Defined.

(** ** More on write_table *)

Lemma enumerate_app {A} (l1 l2 : list A) :
  enumerate (l1 ++ l2)%list
  = (enumerate l1 ++ zip (seq (length l1) (length l2)) l2)%list.
Proof.
  unfold enumerate. rewrite length_app, seq_app. simpl.
  by rewrite zip_with_app by (by rewrite length_seq).
Qed.

Lemma rfold_total {A S} (body : S → A → result S) (s : S) (l : list A) :
  (∀ s x, x ∈ l → ∃ s', body s x = Ok s') → ∃ s', rfold body s l = Ok s'.
Proof.
  revert s. induction l as [|x l IH]; intros s Hall; simpl; [by eexists|].
  destruct (Hall s x) as [s1 ->]; [by left|]. simpl.
  apply IH. intros s2 y Hy. apply Hall. by right.
Qed.

Section TableScatterMore.
Context {F : Type} `{Float64 F}.

(** The scatter loop on columns that all have a prediction. *)
Lemma scatter_loop (predictions : gmap (string * string) (list F))
    (n w : nat) (cols : list (list string)) :
  (∀ key v, predictions !! key = Some v → length v = n - 2) →
  forallb (λ col, numeric_at F col 1 && negb (missing_prediction predictions col)) cols
  = true →
  (length cols ≤ w - 1)%nat →
  ∃ out,
    rfold (scatter_col predictions) (replicate n (replicate w f_zero)) (enumerate cols)
    = Ok out
    ∧ has_shape n w out = true
    ∧ ∀ r c, r < n → c < w →
        cell out r c
        = Some (if (2 <=? r)%nat && (1 <=? c)%nat && (c <=? length cols)%nat
                then prediction_of predictions (cols !!! (c - 1)) !!! (r - 2)
                else f_zero).
Proof.
  intros Hshape. induction cols as [|col cols IH] using rev_ind; intros Hcols Hw.
  - eexists. split_and!; [done| |].
    + apply has_shape_spec. split; [by rewrite length_replicate|].
      intros i row [-> _]%lookup_replicate. by rewrite length_replicate.
    + intros r c Hr Hc. unfold cell.
      rewrite lookup_replicate_2 by done. simpl. rewrite lookup_replicate_2 by done.
      simpl. destruct c; [by rewrite andb_false_r|]. by rewrite andb_false_r.
  - rewrite forallb_app in Hcols. apply andb_true_iff in Hcols as [Hcols Hcol].
    simpl in Hcol. rewrite andb_true_r in Hcol.
    apply andb_true_iff in Hcol as [Hnum Hpresent].
    rewrite length_app in Hw. simpl in Hw.
    destruct IH as (out & Hfold & Hout & Hcells); [done|lia|].
    rewrite enumerate_snoc, rfold_snoc, Hfold, bind_Ok.
    assert (∃ key v, column_key F col = Some key ∧ predictions !! key = Some v)
      as (key & v & Hkey & Hv).
    { unfold missing_prediction in Hpresent.
      destruct (column_key F col) as [key|] eqn:Hkey.
      - destruct (predictions !! key) as [v|] eqn:Hv; [by eauto|].
        by rewrite bool_decide_eq_true_2 in Hpresent.
      - apply numeric_at_Some in Hnum as (c1 & d & Hc1 & Hd).
        unfold column_key in Hkey. rewrite Hc1 in Hkey.
        destruct (col !! 0) as [p_id|] eqn:Hc0; simpl in Hkey.
        + by rewrite Hd in Hkey.
        + apply lookup_ge_None in Hc0. apply lookup_lt_Some in Hc1. lia. }
    rewrite (scatter_col_key _ _ _ _ _ Hkey), Hv. cbn [of_option]. rewrite bind_Ok.
    pose proof Hout as [Hlen Hrows]%has_shape_spec.
    unfold assign_col. rewrite (Hshape _ _ Hv), Hlen, Nat.eqb_refl.
    eexists. split_and!; [done| |].
    + apply has_shape_spec. split; [by rewrite length_imap|].
      intros i row. rewrite list_lookup_imap.
      destruct (out !! i) as [row'|] eqn:Hrow'; [|done].
      destruct (2 <=? i)%nat; cbn; intros [= <-]; rewrite ?length_insert;
        by eapply Hrows.
    + intros r c Hr Hc. specialize (Hcells r c Hr Hc).
      unfold cell in *. rewrite list_lookup_imap.
      destruct (out !! r) as [row|] eqn:Hrow; [|done].
      specialize (Hrows _ _ Hrow). rewrite length_app.
      change (length [col]) with 1.
      assert (prediction_of predictions col = v) as Hpred.
      { unfold prediction_of. rewrite Hkey. simpl. by rewrite Hv. }
      destruct (Nat.leb_spec 2 r) as [H2|H2];
        cbn [fmap option_fmap option_map mbind option_bind andb] in *.
      * destruct (decide (c = length cols + 1)) as [->|Hne].
        -- rewrite list_lookup_insert_eq by lia.
           replace (1 <=? length cols + 1)%nat with true
             by (symmetry; apply Nat.leb_le; lia).
           rewrite Nat.leb_refl. cbn [andb].
           replace (length cols + 1 - 1) with (length cols) by lia.
           rewrite lookup_total_app_r by done. rewrite Nat.sub_diag.
           change ([col] !!! 0) with col. by rewrite Hpred.
        -- rewrite list_lookup_insert_ne by done. rewrite Hcells.
           destruct (Nat.leb_spec 1 c) as [H1|H1]; cbn [andb]; [|done].
           destruct (Nat.leb_spec c (length cols)) as [Hle|Hgt],
                    (Nat.leb_spec c (length cols + 1)) as [Hle'|Hgt'];
             try lia; [|done].
           by rewrite lookup_total_app_l by lia.
      * by rewrite Hcells.
Qed.

Lemma data_columns_length (in_table : list (list string)) :
  length (data_columns in_table) = length (default [] (head in_table)) - 1.
Proof. unfold data_columns. by rewrite length_fmap, length_seq. Qed.
End TableScatterMore.

(** X17: when every column of the reference table has a numeric day
    cell and a prediction, and every prediction row has one value per count
    row, [write_table] fills an array shaped like the reference table: the
    slice below the two heading rows of data column [c] holds the
    prediction found for that column, and the two heading rows and the
    first column hold 0. *)
Theorem write_table_scatter {F : Type} `{Float64 F}
    (IDs : list string) (Y_pred : list (matrix F)) (T : list (list F))
    (in_table : list (list string))
    (predictions : gmap (string * string) (list F)) :
  rfold add_predictions ∅ (zip (zip IDs Y_pred) T) = Ok predictions →
  forallb (forallb (λ row : list F, (length row =? length in_table - 2)%nat)) Y_pred
  = true →
  forallb (λ col, numeric_at F col 1 && negb (missing_prediction predictions col))
    (data_columns in_table) = true →
  ∃ out_table,
    write_table IDs Y_pred T in_table = Ok out_table
    ∧ has_shape (length in_table) (length (default [] (head in_table))) out_table = true
    ∧ (∀ r c col, (2 ≤ r)%nat → r < length in_table →
         data_columns in_table !! c = Some col →
         cell out_table r (c + 1) = Some (prediction_of predictions col !!! (r - 2)))
    ∧ (∀ r c, r < length in_table → c < length (default [] (head in_table)) →
         r < 2 ∨ c = 0 → cell out_table r c = Some f_zero).
Proof.
  intros Hpreds HY Hcols. unfold write_table. rewrite Hpreds, bind_Ok.
  destruct (scatter_loop predictions (length in_table)
              (length (default [] (head in_table))) (data_columns in_table))
    as (out & -> & Hshape & Hcells).
  { by apply (predictions_rows IDs Y_pred T). }
  { done. }
  { by rewrite data_columns_length. }
  exists out. split_and!; [done..| |].
  - intros r c col Hr2 Hr Hc. apply lookup_lt_Some in Hc as Hlt.
    rewrite data_columns_length in Hlt. rewrite Hcells by lia.
    replace (2 <=? r)%nat with true by (symmetry; apply Nat.leb_le; lia).
    replace (1 <=? c + 1)%nat with true by (symmetry; apply Nat.leb_le; lia).
    replace (c + 1 <=? length (data_columns in_table))%nat with true
      by (symmetry; apply Nat.leb_le; rewrite data_columns_length; lia).
    simpl. replace (c + 1 - 1) with c by lia.
    by rewrite (list_lookup_total_correct _ _ _ Hc).
  - intros r c Hr Hc Hedge. rewrite Hcells by done.
    destruct Hedge as [Hr2| ->].
    + by replace (2 <=? r)%nat with false by (symmetry; apply Nat.leb_gt; lia).
    + by rewrite andb_false_r.
Qed.

Lemma write_table_scatter_witness :
  ∃ out_table : matrix Z,
    write_table ["A"; "B"] [[[5]; [6]]; [[7]; [8]]]%Z [[1; 2]; [1; 2]]%Z
      [["id"; "A"; "A"; "B"; "B"]; ["day"; "1"; "2"; "1"; "2"];
       ["otu1"; "0"; "0"; "0"; "0"]]
    = Ok out_table
    ∧ has_shape 3 5 out_table = true
    ∧ cell out_table 2 3 = Some 7%Z.
Proof.
  destruct (write_table_scatter (F:=Z) ["A"; "B"] [[[5]; [6]]; [[7]; [8]]]%Z
              [[1; 2]; [1; 2]]%Z
              [["id"; "A"; "A"; "B"; "B"]; ["day"; "1"; "2"; "1"; "2"];
               ["otu1"; "0"; "0"; "0"; "0"]]
              {[("A", "1.0") := [5%Z]; ("A", "2.0") := [6%Z];
                ("B", "1.0") := [7%Z]; ("B", "2.0") := [8%Z]]})
    as (out & Hout & Hshape & Hcells & _).
  - vm_compute. reflexivity.
  - vm_compute. reflexivity.
  - vm_compute. reflexivity.
  - exists out. split_and!; [exact Hout|exact Hshape|].
    apply (Hcells 2 2 ["B"; "1"; "0"]); [lia|simpl; lia|reflexivity].
Defined.

(** X18: a subject with more days than prediction rows makes the
    construction of the prediction dictionary raise IndexError. *)
Theorem add_predictions_short {F : Type} `{Float64 F}
    (predictions : gmap (string * string) (list F)) (p_id : string)
    (y_pred : matrix F) (days : list F) :
  length y_pred < length days →
  add_predictions predictions (p_id, y_pred, days) = Raise IndexError.
Proof.
  intros Hlen. unfold add_predictions.
  rewrite <-(take_drop (length y_pred) days), enumerate_app, rfold_app.
  edestruct (rfold_total
               (λ (predictions : gmap (string * string) (list F)) '(t, day),
                  row ← getitem y_pred t;
                  Ok (<[(p_id, str_of_float day) := row]> predictions))
               predictions (enumerate (take (length y_pred) days))) as [preds ->].
  { intros s [t day] Hin%elem_of_enumerate. apply lookup_lt_Some in Hin.
    rewrite length_take in Hin.
    destruct (lookup_lt_is_Some_2 y_pred t) as [row Hrow]; [lia|].
    unfold getitem. rewrite Hrow. simpl. by eexists. }
  rewrite bind_Ok, length_take_le by lia.
  destruct (drop (length y_pred) days) as [|d rest] eqn:Hdrop.
  { apply (f_equal length) in Hdrop. rewrite length_drop in Hdrop. simpl in Hdrop. lia. }
  simpl. unfold getitem.
  by rewrite (proj2 (lookup_ge_None y_pred (length y_pred))) by lia.
Qed.

Lemma add_predictions_short_witness :
  add_predictions (F:=Z) ∅ ("A", [[5]]%Z, [1; 2]%Z) = Raise IndexError.
Proof.
  refine (add_predictions_short (F:=Z) ∅ "A" [[5]]%Z [1; 2]%Z _). simpl. lia.
Defined.

(** ** Bounds of the encoder and the prediction dictionary *)

Section Bounds.
Context {F : Type} `{Float64 F}.

Lemma setitem2_out_of_range (m : matrix F) (i j n k : nat) (v : F) :
  has_shape n k m = true → (k ≤ j)%nat → setitem2 m i j v = Raise IndexError.
Proof.
  intros [_ Hrows]%has_shape_spec Hj. unfold setitem2.
  destruct (m !! i) as [row|] eqn:Hrow; [|done].
  rewrite (Hrows _ _ Hrow).
  by replace (j <? k)%nat with false by (symmetry; apply Nat.ltb_ge; lia).
Qed.

Lemma encode_day_out_of_range (days : list F) (ev : event F) (effects : matrix F)
    (n k : nat) (p : nat * F) :
  has_shape n k effects = true → (k ≤ event_idx ev)%nat →
  encode_day days ev effects p = Ok effects
  ∨ encode_day days ev effects p = Raise IndexError.
Proof.
  intros Hshape Hk. destruct p as [i d]. unfold encode_day.
  rewrite (setitem2_out_of_range effects i (event_idx ev) n k) by done.
  destruct (f_leb (start_day ev) d && f_leb d (end_day ev)); [by right|].
  destruct (f_leb d (start_day ev) && f_leb (end_day ev) (days !!! (i + 1))
            && f_ltb (start_day ev) (days !!! (i + 1))); [by right|by left].
Qed.

Lemma encode_days_out_of_range (days : list F) (ev : event F) (effects : matrix F)
    (n k : nat) (l : list (nat * F)) :
  has_shape n k effects = true → (k ≤ event_idx ev)%nat →
  rfold (encode_day days ev) effects l = Ok effects
  ∨ rfold (encode_day days ev) effects l = Raise IndexError.
Proof.
  intros Hshape Hk. induction l as [|p l IH]; [by left|].
  rewrite rfold_cons.
  destruct (encode_day_out_of_range days ev effects n k p Hshape Hk) as [-> | ->].
  - by rewrite bind_Ok.
  - by right.
Qed.
End Bounds.

(** X19: a record whose type index is not below the number of columns of
    the effect matrix makes the encoder raise IndexError, whether or not
    any day lies in its window. *)
Theorem encode_event_out_of_range {F : Type} `{Float64 F}
    (days : list F) (effects : matrix F) (ev : event F) (n k : nat) :
  has_shape n k effects = true →
  (k ≤ event_idx ev)%nat →
  0 < length days →
  encode_event days effects ev = Raise IndexError.
Proof.
  intros Hshape Hk Hn. unfold encode_event.
  destruct (encode_days_out_of_range days ev effects n k
              (enumerate (take (length days - 1) days)) Hshape Hk) as [-> | ->];
    [|done].
  rewrite bind_Ok. destruct (last days) as [d_last|] eqn:Hlast.
  - simpl. by apply (setitem2_out_of_range _ _ _ n k).
  - apply last_None in Hlast. subst. simpl in Hn. lia.
Qed.

Lemma encode_event_out_of_range_witness :
  encode_event (F:=Z) [1; 2]%Z [[0]; [0]]%Z (mk_event 1 5 6 3)%Z = Raise IndexError.
Proof.
  refine (encode_event_out_of_range (F:=Z) [1; 2]%Z [[0]; [0]]%Z (mk_event 1 5 6 3)%Z
            2 1 _ _ _).
  - reflexivity.
  - simpl. lia.
  - simpl. lia.
Defined.

(** X20: after the predictions of one subject are stored, the entries of
    other subjects are as before, and the key of day [t] of the subject
    holds prediction row [t], provided no later day of the subject is
    written the same way (a later day with the same text overwrites it). *)
Theorem add_predictions_lookup {F : Type} `{Float64 F}
    (predictions predictions' : gmap (string * string) (list F)) (p_id : string)
    (y_pred : matrix F) (days : list F) :
  add_predictions predictions (p_id, y_pred, days) = Ok predictions' →
  (∀ id day, id ≠ p_id → predictions' !! (id, day) = predictions !! (id, day))
  ∧ ∀ t d, days !! t = Some d →
      (∀ t' d', t < t' → days !! t' = Some d' → str_of_float d' ≠ str_of_float d) →
      predictions' !! (p_id, str_of_float d) = y_pred !! t
      ∧ is_Some (y_pred !! t).
Proof.
  unfold add_predictions. revert predictions'.
  induction days as [|d0 days IH] using rev_ind; intros predictions'.
  - intros [= <-]. split; [done|]. by intros t d ?.
  - rewrite enumerate_snoc, rfold_snoc.
    intros (preds1 & Hfold & Hlast)%bind_Ok_inv.
    destruct (IH _ Hfold) as [IHother IHown].
    unfold getitem in Hlast.
    destruct (y_pred !! length days) as [row|] eqn:Hrow; simplify_eq/=.
    split.
    + intros id day Hid. rewrite lookup_insert_ne by congruence. by apply IHother.
    + intros t d Ht Hlater.
      destruct (decide (t = length days)) as [->|Hne].
      * rewrite lookup_app_r, Nat.sub_diag in Ht by done. simplify_eq/=.
        by rewrite lookup_insert_eq, Hrow.
      * assert (t < length days) as Hlt.
        { apply lookup_lt_Some in Ht. rewrite length_app in Ht. simpl in Ht. lia. }
        rewrite lookup_app_l in Ht by done.
        rewrite lookup_insert_ne.
        -- apply IHown; [done|]. intros t' d' Htt' Hd'.
           apply (Hlater t'); [done|]. by apply lookup_app_l_Some.
        -- intros [= Heq]. apply (Hlater (length days) d0); [done| |done].
           by rewrite lookup_app_r, Nat.sub_diag.
Qed.

Lemma add_predictions_lookup_witness :
  ({[("A", "1.0") := [5%Z]; ("A", "2.0") := [6%Z]]} : gmap (string * string) (list Z))
    !! ("A", str_of_float 1%Z) = [[5]; [6]]%Z !! 0
  ∧ is_Some ([[5]; [6]]%Z !! 0).
Proof.
  refine (proj2 (add_predictions_lookup (F:=Z) ∅
                   {[("A", "1.0") := [5%Z]; ("A", "2.0") := [6%Z]]}
                   "A" [[5]; [6]]%Z [1; 2]%Z _) 0 1%Z _ _).
  - vm_compute. reflexivity.
  - reflexivity.
  - intros [|[|t']] d' Hlt Hd'; simplify_eq/=; [lia|discriminate].
Defined.
